(** * A shallow embedding of the Streamlit detection front-end
    ([src/utils.py] and [src/app.py]).

    One script run is a computation in a small state/exception monad.
    The state holds the trace of observable effects (widgets, capture
    calls, model calls, messages), the capture object currently bound to
    [vid_cap], and the process-wide resource cache of [st.cache_resource].
    A Python exception is the [RExn] outcome; a run that would need more
    loop iterations than the given fuel ends in [RFuel], which no
    [except] clause catches. *)

From Stdlib Require Import QArith ZArith Lia.
From stdpp Require Import base gmap strings list.

(* ------------------------------------------------------------------ *)
(** ** Data *)

(** A raster frame: width, height and (an abstraction of) its pixels. *)
Record image := mkImage { img_w : nat; img_h : nat; img_px : nat }.

(** A detected box: its [xywh] geometry and its confidence. *)
Record box := mkBox { box_xywh : nat; box_conf : Q }.

(** [res[0].plot()]: the frame with its boxes burned in. *)
Record annotated := mkAnnotated { an_image : image; an_boxes : list box }.

Definition plot (i : image) (bs : list box) : annotated := mkAnnotated i bs.

(** A YOLO network: [model.predict(image, conf=c)] returns the boxes of
    [res[0]], or raises ([None]). *)
Record yolo := mkYolo { predict : image -> Q -> option (list box) }.

(** A model handle: the Python object built by [YOLO(path)]; [h_id] is
    its identity (what [is] compares). *)
Record handle := mkHandle { h_id : nat; h_net : yolo }.

(** How [cv2.VideoCapture] sees a source: whether [isOpened()] holds and
    the frames [read()] would return, in order. *)
Record capture := mkCapture { cap_opened : bool; cap_frames : list image }.

(** An uploaded file: as a PIL image, as a video file (what
    [cv2.VideoCapture] sees when the whole file is on disk), and its
    length in bytes, [len(source_video.read())]. *)
Record upload := mkUpload { up_image : image; up_cap : capture; up_size : N }.

Inductive button := BtnStart | BtnStop.
Inductive capsrc := CapFile | CapCamera.
Inductive source := SrcImage | SrcVideo | SrcCamera | SrcOther.

(** The [st.error] messages of the two source files. *)
Inductive errmsg :=
  | ErrOnlyDetect   (* "当前仅实现了'检测'功能" *)
  | ErrSelectModel  (* "请在侧边栏中选择模型" *)
  | ErrLoadModel    (* "无法加载模型，请检查指定的路径" *)
  | ErrLoadVideo    (* "加载视频出错" *)
  | ErrSources.     (* "当前仅实现了'图像'和'视频'数据源" *)

Inductive exn := ExnPredict | ExnLoad | ExnNameError.

(** Observable effects. *)
Inductive event :=
  | EvColumns                   (* st.columns(2) *)
  | EvShowUpload (i : image)    (* st.image(source_img) in col1 *)
  | EvShowVideo                 (* st.video(source_video) *)
  | EvButton (b : button)       (* st.button(...) rendered *)
  | EvPredict (i : image) (c : Q)  (* model.predict(i, conf=c) called *)
  | EvShowResult (a : annotated)   (* st.image(res_plotted) in col2 *)
  | EvWriteBox (xywh : nat)     (* st.write of one box *)
  | EvWriteMsg                  (* st.write in the image except clause *)
  | EvEmpty                     (* st_frame = st.empty() *)
  | EvSlotImage (a : annotated) (* st_frame.image(res_plotted) *)
  | EvCapOpen (src : capsrc)    (* cv2.VideoCapture(...) *)
  | EvCapRead                   (* vid_cap.read() *)
  | EvCapRelease                (* vid_cap.release() *)
  | EvLoadFile (p : string)     (* YOLO(p) reads the weights file *)
  | EvError (m : errmsg).       (* st.error(...) *)

(** Everything a run reads from the user and the outside world. *)
Record env := mkEnv {
  e_model_type : option string;  (* selectbox over DETECTION_MODEL_LIST *)
  e_model_dir : string;          (* config.DETECTION_MODEL_DIR *)
  e_slider : Z;                  (* slider "选择模型置信度", 30..100 *)
  e_source : source;             (* selectbox over SOURCES_LIST *)
  e_upload : option upload;      (* sidebar.file_uploader *)
  e_start : bool;                (* st.button("开始执行") this run *)
  e_stop : bool;                 (* st.button("停止运行") this run *)
  e_camera : capture;            (* cv2.VideoCapture(0) *)
  e_weights : string -> option yolo;  (* YOLO(path), or raises *)
  e_tmp_buffer : N               (* buffer size of the NamedTemporaryFile (st_blksize) *)
}.

Record state := mkState {
  st_trace : list event;
  st_cap : capture;
  st_cache : gmap string handle;
  st_next : nat
}.

(* ------------------------------------------------------------------ *)
(** ** The monad *)

Inductive result (A : Type) := ROk (a : A) | RExn (e : exn) | RFuel.
Arguments ROk {A} a.
Arguments RExn {A} e.
Arguments RFuel {A}.

Definition M (A : Type) := state -> result A * state.

Definition ret {A} (a : A) : M A := fun s => (ROk a, s).

Definition bind {A B} (m : M A) (k : A -> M B) : M B := fun s =>
  match m s with
  | (ROk a, s') => k a s'
  | (RExn e, s') => (RExn e, s')
  | (RFuel, s') => (RFuel, s')
  end.

Definition raise {A} (e : exn) : M A := fun s => (RExn e, s).

Definition out_of_fuel {A} : M A := fun s => (RFuel, s).

(** [try: m except Exception: h]. *)
Definition try_except {A} (m : M A) (h : exn -> M A) : M A := fun s =>
  match m s with
  | (RExn e, s') => h e s'
  | r => r
  end.

Notation "x <- m ;; k" := (bind m (fun x => k))
  (at level 100, m at next level, k at level 200).
Notation "m ;; k" := (bind m (fun _ => k))
  (at level 100, k at level 200).

Definition set_trace (t : list event) (s : state) : state :=
  mkState t (st_cap s) (st_cache s) (st_next s).
Definition set_cap (c : capture) (s : state) : state :=
  mkState (st_trace s) c (st_cache s) (st_next s).

Definition emit (e : event) : M unit := fun s =>
  (ROk tt, set_trace (st_trace s ++ [e]) s).

Fixpoint for_each {A} (f : A -> M unit) (l : list A) : M unit :=
  match l with
  | [] => ret tt
  | x :: xs => f x ;; for_each f xs
  end.

(* ------------------------------------------------------------------ *)
(** ** Streamlit and OpenCV primitives *)

(** [st.button(label)]: renders the button, returns whether it was
    clicked (the click is what triggered this run). *)
Definition st_button (b : button) (clicked : bool) : M bool :=
  emit (EvButton b) ;; ret clicked.

(** [cv2.VideoCapture(src)]: binds [vid_cap]; never raises. *)
Definition cap_open (src : capsrc) (c : capture) : M unit :=
  emit (EvCapOpen src) ;; (fun s => (ROk tt, set_cap c s)).

Definition cap_isOpened : M bool := fun s => (ROk (cap_opened (st_cap s)), s).

(** [vid_cap.read()]: [(success, image)] as an option. *)
Definition cap_read_result : M (option image) := fun s =>
  let c := st_cap s in
  if cap_opened c then
    match cap_frames c with
    | [] => (ROk None, s)
    | f :: fs => (ROk (Some f), set_cap (mkCapture true fs) s)
    end
  else (ROk None, s).

Definition cap_read : M (option image) := emit EvCapRead ;; cap_read_result.

Definition cap_release : M unit :=
  emit EvCapRelease ;;
  (fun s => (ROk tt, set_cap (mkCapture false (cap_frames (st_cap s))) s)).

(** [model.predict(image, conf=conf)] and [res[0].boxes]. *)
Definition predict_call (model : handle) (i : image) (conf : Q) : M (list box) :=
  emit (EvPredict i conf) ;;
  match predict (h_net model) i conf with
  | Some bs => ret bs
  | None => raise ExnPredict
  end.

(* ------------------------------------------------------------------ *)
(** ** [src/utils.py] *)

(** [cv2.resize(image, (720, int(720 * (9 / 16))))]. *)
Definition resize (i : image) : image := mkImage 720 (Nat.div (720 * 9) 16) (img_px i).

(** [_display_detected_frames(conf, model, st_frame, image)]. *)
Definition _display_detected_frames (conf : Q) (model : handle) (image : image) : M unit :=
  let image := resize image in
  res <- predict_call model image conf ;;
  emit (EvSlotImage (plot image res)).

(** [load_model(model_path)] under [@st.cache_resource]: a cached value
    is returned as it is; otherwise [YOLO(model_path)] runs and, if it
    does not raise, its result is stored under the argument. *)
Definition load_model (weights : string -> option yolo) (model_path : string) : M handle :=
  fun s =>
    match st_cache s !! model_path with
    | Some h => (ROk h, s)
    | None =>
        let s1 := set_trace (st_trace s ++ [EvLoadFile model_path]) s in
        match weights model_path with
        | Some y =>
            let h := mkHandle (st_next s) y in
            (ROk h, mkState (st_trace s1) (st_cap s1)
                      (<[model_path := h]> (st_cache s1)) (S (st_next s1)))
        | None => (RExn ExnLoad, s1)
        end
    end.

(** [infer_uploaded_image(conf, model)]. *)
Definition infer_uploaded_image (conf : Q) (model : handle) (e : env) : M unit :=
  let source_img := e_upload e in
  emit EvColumns ;;
  (match source_img with
   | Some u => emit (EvShowUpload (up_image u))
   | None => ret tt
   end) ;;
  match source_img with
  | Some u =>
      clicked <- st_button BtnStart (e_start e) ;;
      if clicked then
        let uploaded_image := up_image u in
        boxes <- predict_call model uploaded_image conf ;;
        let res_plotted := plot uploaded_image boxes in
        emit (EvShowResult res_plotted) ;;
        try_except
          (for_each (fun b => emit (EvWriteBox (box_xywh b))) boxes)
          (fun _ => emit EvWriteMsg ;; emit EvWriteMsg)
      else ret tt
  | None => ret tt
  end.

(** The [while vid_cap.isOpened()] loop of [infer_uploaded_video]. *)
Fixpoint video_loop (fuel : nat) (conf : Q) (model : handle) : M unit :=
  opened <- cap_isOpened ;;
  if opened then
    match fuel with
    | O => out_of_fuel
    | S fuel' =>
        r <- cap_read ;;
        match r with
        | Some image => _display_detected_frames conf model image ;;
                        video_loop fuel' conf model
        | None => cap_release (* break *)
        end
    end
  else ret tt.

(** The file [cv2.VideoCapture(tfile.name)] opens after
    [tfile.write(source_video.read())], with no flush in between:
    the buffered writer keeps data that fits in its empty buffer in
    memory and writes longer data through to the file. A file with
    nothing on disk is empty, and OpenCV cannot open it. *)
Definition tmp_capture (buffer : N) (u : upload) : capture :=
  if N.leb (up_size u) buffer then mkCapture false [] else up_cap u.

(** [infer_uploaded_video(conf, model)]. *)
Definition infer_uploaded_video (fuel : nat) (conf : Q) (model : handle) (e : env) : M unit :=
  let source_video := e_upload e in
  (match source_video with
   | Some _ => emit EvShowVideo
   | None => ret tt
   end) ;;
  match source_video with
  | Some u =>
      clicked <- st_button BtnStart (e_start e) ;;
      if clicked then
        try_except
          (cap_open CapFile (tmp_capture (e_tmp_buffer e) u) ;;
           emit EvEmpty ;;
           video_loop fuel conf model)
          (fun _ => emit (EvError ErrLoadVideo))
      else ret tt
  | None => ret tt
  end.

(** The [while not flag] loop of [infer_uploaded_webcam]. *)
Fixpoint webcam_loop (fuel : nat) (flag : bool) (conf : Q) (model : handle) : M unit :=
  if negb flag then
    match fuel with
    | O => out_of_fuel
    | S fuel' =>
        r <- cap_read ;;
        match r with
        | Some image => _display_detected_frames conf model image ;;
                        webcam_loop fuel' flag conf model
        | None => cap_release (* break *)
        end
    end
  else ret tt.

(** [infer_uploaded_webcam(conf, model)]. *)
Definition infer_uploaded_webcam (fuel : nat) (conf : Q) (model : handle) (e : env) : M unit :=
  try_except
    (flag <- st_button BtnStop (e_stop e) ;;
     cap_open CapCamera (e_camera e) ;;
     emit EvEmpty ;;
     webcam_loop fuel flag conf model)
    (fun _ => emit (EvError ErrLoadVideo)).

(* ------------------------------------------------------------------ *)
(** ** [src/app.py] *)

(** [Path(config.DETECTION_MODEL_DIR, str(model_type))]. *)
Definition path_join (dir name : string) : string := dir +:+ "/" +:+ name.

(** [float(st.sidebar.slider(..., 30, 100, 50)) / 100]. *)
Definition confidence_of (slider : Z) : Q := Qmake slider 100.

(** Reading the variable [model]: unbound after a failed load. *)
Definition read_model (model : option handle) : M handle :=
  match model with
  | Some h => ret h
  | None => raise ExnNameError
  end.

(** One run of the script (the task type selectbox has the single
    option "检测", so its [else] branch is never taken). *)
Definition app_run (fuel : nat) (e : env) : M unit :=
  let model_type := e_model_type e in
  let confidence := confidence_of (e_slider e) in
  model_path <- (match model_type with
                 | Some mt => if String.eqb mt "" then emit (EvError ErrSelectModel) ;; ret ""%string
                              else ret (path_join (e_model_dir e) mt)
                 | None => emit (EvError ErrSelectModel) ;; ret ""%string
                 end) ;;
  model <- try_except (h <- load_model (e_weights e) model_path ;; ret (Some h))
                      (fun _ => emit (EvError ErrLoadModel) ;; ret None) ;;
  match e_source e with
  | SrcImage => m <- read_model model ;; infer_uploaded_image confidence m e
  | SrcVideo => m <- read_model model ;; infer_uploaded_video fuel confidence m e
  | SrcCamera => m <- read_model model ;; infer_uploaded_webcam fuel confidence m e
  | SrcOther => emit (EvError ErrSources)
  end.

(* ------------------------------------------------------------------ *)
(** ** Trace observations *)

Definition count (p : event -> bool) (l : list event) : nat := length (List.filter p l).

Definition is_predict (e : event) : bool := match e with EvPredict _ _ => true | _ => false end.
Definition is_slot_image (e : event) : bool := match e with EvSlotImage _ => true | _ => false end.
Definition is_empty_slot (e : event) : bool := match e with EvEmpty => true | _ => false end.
Definition is_open (e : event) : bool := match e with EvCapOpen _ => true | _ => false end.
Definition is_read (e : event) : bool := match e with EvCapRead => true | _ => false end.
Definition is_release (e : event) : bool := match e with EvCapRelease => true | _ => false end.
Definition is_error (e : event) : bool := match e with EvError _ => true | _ => false end.
Definition is_load_error (e : event) : bool := match e with EvError ErrLoadModel => true | _ => false end.
Definition is_load_file (p : string) (e : event) : bool :=
  match e with EvLoadFile q => String.eqb p q | _ => false end.

(** The events of one successfully read frame in the capture loops. *)
Definition frame_events (conf : Q) (model : handle) (f : image) : list event :=
  match predict (h_net model) (resize f) conf with
  | Some bs => [EvCapRead; EvPredict (resize f) conf; EvSlotImage (plot (resize f) bs)]
  | None => [EvCapRead; EvPredict (resize f) conf]
  end.

(** A concrete setting: an empty process and a stub network. *)
Definition state0 : state := mkState [] (mkCapture false []) ∅ 0.
Definition frame_n (n : nat) : image := mkImage 1280 720 n.
Definition ten_frames : list image := map frame_n (seq 0 10).
Definition stub_zero : yolo := mkYolo (fun _ _ => Some []).
Definition stub_fail : yolo := mkYolo (fun _ _ => None).
Definition video_env (y : yolo) (c : capture) (start stop : bool) (src : source) : env :=
  mkEnv (Some "yolov8n.pt"%string) "weights/detection"%string 50 src
        (Some (mkUpload (frame_n 0) c 1000000)) start stop c (fun _ => Some y) 4096.

(** A number of consecutive script runs in one process. *)
Definition runs (fuel : nat) (es : list env) : M unit := for_each (app_run fuel) es.

(** [m] only appends events satisfying [P] to the trace. *)
Definition emits {A} (P : event -> Prop) (m : M A) : Prop :=
  forall s, exists l, st_trace (snd (m s)) = st_trace s ++ l /\ Forall P l.

(** [m] leaves the resource cache as it is. *)
Definition keeps_cache {A} (m : M A) : Prop :=
  forall s, st_cache (snd (m s)) = st_cache s.

(** [m] maps states satisfying [I] to states satisfying [I]. *)
Definition preserves {A} (I : state -> Prop) (m : M A) : Prop :=
  forall s, I s -> I (snd (m s)).

(** Every displayed detection result has only boxes of confidence at
    least [t]. *)
Definition boxes_above (t : Q) (e : event) : Prop :=
  match e with
  | EvShowResult a | EvSlotImage a => Forall (fun b => Qle t (box_conf b)) (an_boxes a)
  | _ => True
  end.

(** Every inference call uses confidence [c]. *)
Definition conf_is (c : Q) (e : event) : Prop :=
  match e with EvPredict _ c' => c' = c | _ => True end.

(** No inference, no result display, no capture. *)
Definition no_inference (e : event) : Prop :=
  match e with
  | EvPredict _ _ | EvShowResult _ | EvSlotImage _ | EvCapOpen _ => False
  | _ => True
  end.

Definition not_start_button (e : event) : Prop :=
  match e with EvButton BtnStart => False | _ => True end.

Definition no_load (e : event) : Prop :=
  match e with EvLoadFile _ => False | _ => True end.

(** The [model_path] that [app.py] computes from the selectbox value. *)
Definition selected_path (e : env) : string :=
  match e_model_type e with
  | Some mt => if String.eqb mt "" then ""%string else path_join (e_model_dir e) mt
  | None => ""%string
  end.

(** A network that raises on the frame with pixels [0] only. *)
Definition fail_first : yolo :=
  mkYolo (fun i _ => if Nat.eqb (img_px i) 0 then None else Some []).

(** Every inference call is on a 720x405 frame. *)
Definition predict_on_resized (e : event) : Prop :=
  match e with EvPredict i _ => img_w i = 720 /\ img_h i = 405 | _ => True end.

Example resize_720 : resize (frame_n 3) = mkImage 720 405 3.
Proof. reflexivity. Qed.

Lemma tmp_capture_large (b : N) (u : upload) : (b < up_size u)%N -> tmp_capture b u = up_cap u.
Proof. intros H. unfold tmp_capture. rewrite (proj2 (N.leb_gt _ _) H). reflexivity. Qed.

Lemma tmp_capture_small (b : N) (u : upload) :
  (up_size u <= b)%N -> tmp_capture b u = mkCapture false [].
Proof. intros H. unfold tmp_capture. rewrite (proj2 (N.leb_le _ _) H). reflexivity. Qed.

Example video_ten_frames :
  let '(r, s) := app_run 20 (video_env stub_zero (mkCapture true ten_frames) true false SrcVideo) state0 in
  r = ROk tt /\ count is_predict (st_trace s) = 10 /\ count is_slot_image (st_trace s) = 10
  /\ count is_release (st_trace s) = 1 /\ count is_error (st_trace s) = 0.
Proof. vm_compute. auto. Qed.
Lemma video_loop_exhausts (conf : Q) (model : handle) :
  forall (fs : list image) (fuel : nat) (s : state),
  cap_opened (st_cap s) = true -> cap_frames (st_cap s) = fs -> length fs < fuel ->
  (forall f, In f fs -> predict (h_net model) (resize f) conf <> None) ->
  exists s', video_loop fuel conf model s = (ROk tt, s')
    /\ st_trace s' = st_trace s ++ flat_map (frame_events conf model) fs ++ [EvCapRead; EvCapRelease]
    /\ cap_opened (st_cap s') = false
    /\ st_cache s' = st_cache s /\ st_next s' = st_next s.
Proof.
  induction fs as [|f fs IH]; intros fuel [t c ca n] Ho Hf Hl Hp; simpl in *;
    destruct fuel as [|fuel]; try lia; subst.
  - destruct c as [o fs0]; simpl in *; subst.
    eexists; split; [reflexivity|]. simpl. rewrite <- !app_assoc. simpl. auto.
  - destruct c as [o fs0]; simpl in *; subst.
    unfold frame_events at 1.
    destruct (predict (h_net model) (resize f) conf) as [bs|] eqn:E;
      [|exfalso; apply (Hp f); auto].
    edestruct (IH fuel (mkState (((t ++ [EvCapRead]) ++ [EvPredict (resize f) conf]) ++
                                  [EvSlotImage (plot (resize f) bs)]) (mkCapture true fs) ca n))
      as (s' & Hrun & Ht & Ho' & Hc & Hn); simpl; auto; try lia.
    exists s'. split.
    + unfold bind, cap_isOpened at 1. simpl.
      unfold bind, _display_detected_frames, predict_call, emit, bind. simpl.
      rewrite E. simpl. exact Hrun.
    + rewrite Ht. simpl. rewrite <- !app_assoc. simpl. auto.
Qed.

Lemma count_app (p : event -> bool) (l1 l2 : list event) :
  count p (l1 ++ l2) = count p l1 + count p l2.
Proof. unfold count. rewrite List.filter_app, length_app. reflexivity. Qed.

Lemma count_cons (p : event -> bool) (e : event) (l : list event) :
  count p (e :: l) = (if p e then 1 else 0) + count p l.
Proof. unfold count. simpl. destruct (p e); reflexivity. Qed.

Lemma count_nil (p : event -> bool) : count p [] = 0.
Proof. reflexivity. Qed.

Create Rewrite HintDb counts.
#[local] Hint Rewrite count_app count_cons count_nil : counts.

Lemma count_frames (conf : Q) (model : handle) (p : event -> bool) (k : nat) (fs : list image) :
  (forall f, In f fs -> predict (h_net model) (resize f) conf <> None) ->
  (forall f bs, predict (h_net model) (resize f) conf = Some bs ->
     count p (frame_events conf model f) = k) ->
  count p (flat_map (frame_events conf model) fs) = k * length fs.
Proof.
  intros Hp Hk. induction fs as [|f fs IH]; simpl; [rewrite count_nil; lia|].
  autorewrite with counts. rewrite IH by (intros; apply Hp; simpl; auto).
  destruct (predict (h_net model) (resize f) conf) eqn:E; [|exfalso; apply (Hp f); simpl; auto].
  rewrite (Hk f l E). lia.
Qed.

(** An upload longer than the temporary file's buffer, decoded by OpenCV
    as N frames, played with an inference that does not raise: exactly N
    inference calls, each followed by one update of the single
    [st.empty()] slot, then the final failed read and the release, and no
    error message. *)
Theorem video_n_frames_exhausted (fuel : nat) (conf : Q) (model : handle) (e : env)
    (u : upload) (fs : list image) (s : state) :
  e_upload e = Some u -> e_start e = true -> (e_tmp_buffer e < up_size u)%N ->
  up_cap u = mkCapture true fs -> length fs < fuel ->
  (forall f, In f fs -> predict (h_net model) (resize f) conf <> None) ->
  exists s', infer_uploaded_video fuel conf model e s = (ROk tt, s')
    /\ st_trace s' = st_trace s ++ [EvShowVideo; EvButton BtnStart; EvCapOpen CapFile; EvEmpty]
                      ++ flat_map (frame_events conf model) fs ++ [EvCapRead; EvCapRelease]
    /\ count is_predict (st_trace s') = count is_predict (st_trace s) + length fs
    /\ count is_slot_image (st_trace s') = count is_slot_image (st_trace s) + length fs
    /\ count is_empty_slot (st_trace s') = count is_empty_slot (st_trace s) + 1
    /\ count is_error (st_trace s') = count is_error (st_trace s)
    /\ cap_opened (st_cap s') = false.
Proof.
  intros Hu Hs Hb Hc Hl Hp.
  destruct s as [t c ca n].
  edestruct (video_loop_exhausts conf model fs fuel
               (mkState (t ++ [EvShowVideo; EvButton BtnStart; EvCapOpen CapFile; EvEmpty])
                        (mkCapture true fs) ca n))
    as (s' & Hrun & Ht & Ho & _ & _); simpl; auto.
  exists s'. split.
  { unfold infer_uploaded_video. rewrite Hu, Hs. unfold bind, emit, st_button, ret at 1. simpl.
    unfold try_except, bind, cap_open, emit, set_trace, set_cap. simpl.
    rewrite (tmp_capture_large _ _ Hb), Hc. simpl.
    rewrite <- !app_assoc. simpl. rewrite Hrun. reflexivity. }
  simpl in Ht. rewrite Ht. autorewrite with counts. simpl.
  rewrite (count_frames conf model is_predict 1 fs Hp),
          (count_frames conf model is_slot_image 1 fs Hp),
          (count_frames conf model is_empty_slot 0 fs Hp),
          (count_frames conf model is_error 0 fs Hp);
    try (intros f bs E; unfold frame_events; rewrite E; reflexivity).
  repeat split; auto; try lia. rewrite <- app_assoc. reflexivity.
Qed.

Lemma video_n_frames_exhausted_witness :
  exists s', infer_uploaded_video 20 (1 # 2) (mkHandle 0 stub_zero)
               (video_env stub_zero (mkCapture true ten_frames) true false SrcVideo) state0 = (ROk tt, s')
    /\ st_trace s' = st_trace state0 ++ [EvShowVideo; EvButton BtnStart; EvCapOpen CapFile; EvEmpty]
                      ++ flat_map (frame_events (1 # 2) (mkHandle 0 stub_zero)) ten_frames
                      ++ [EvCapRead; EvCapRelease]
    /\ count is_predict (st_trace s') = count is_predict (st_trace state0) + length ten_frames
    /\ count is_slot_image (st_trace s') = count is_slot_image (st_trace state0) + length ten_frames
    /\ count is_empty_slot (st_trace s') = count is_empty_slot (st_trace state0) + 1
    /\ count is_error (st_trace s') = count is_error (st_trace state0)
    /\ cap_opened (st_cap s') = false.
Proof.
  apply (video_n_frames_exhausted 20 (1 # 2) (mkHandle 0 stub_zero) _
           (mkUpload (frame_n 0) (mkCapture true ten_frames) 1000000) ten_frames state0);
    try reflexivity.
  - simpl. lia.
  - intros f _. simpl. discriminate.
Defined.

(** C1 (code_bug): an uploaded video that fits in the temporary file's
    write buffer is never decoded, however many frames it has. Nothing
    flushes [tfile] before [cv2.VideoCapture(tfile.name)], so OpenCV opens
    an empty file, [isOpened()] is false, and the run ends at once: no
    read, no inference, no slot update, no error message. *)
Theorem small_video_upload_not_decoded (fuel : nat) (conf : Q) (model : handle) (e : env)
    (u : upload) (s : state) :
  e_upload e = Some u -> e_start e = true -> (up_size u <= e_tmp_buffer e)%N ->
  exists s', infer_uploaded_video fuel conf model e s = (ROk tt, s')
    /\ st_trace s' = st_trace s ++ [EvShowVideo; EvButton BtnStart; EvCapOpen CapFile; EvEmpty]
    /\ count is_read (st_trace s') = count is_read (st_trace s)
    /\ count is_predict (st_trace s') = count is_predict (st_trace s)
    /\ count is_slot_image (st_trace s') = count is_slot_image (st_trace s)
    /\ count is_error (st_trace s') = count is_error (st_trace s).
Proof.
  intros Hu Hs Hb. destruct s as [t c ca n].
  eexists. split.
  { unfold infer_uploaded_video. rewrite Hu, Hs. unfold bind, emit, st_button, ret at 1. simpl.
    unfold try_except, bind, cap_open, emit, set_trace, set_cap. simpl.
    rewrite (tmp_capture_small _ _ Hb). destruct fuel; reflexivity. }
  simpl. rewrite <- !app_assoc. simpl. autorewrite with counts. simpl. repeat split; lia.
Qed.

Lemma small_video_upload_not_decoded_witness :
  let u := mkUpload (frame_n 0) (mkCapture true (firstn 3 ten_frames)) 939 in
  let e := mkEnv (Some "yolov8n.pt"%string) "weights/detection"%string 50 SrcVideo (Some u)
                 true false (mkCapture false []) (fun _ => Some stub_zero) 4096 in
  exists s', infer_uploaded_video 20 (1 # 2) (mkHandle 0 stub_zero) e state0 = (ROk tt, s')
    /\ st_trace s' = st_trace state0 ++ [EvShowVideo; EvButton BtnStart; EvCapOpen CapFile; EvEmpty]
    /\ count is_read (st_trace s') = count is_read (st_trace state0)
    /\ count is_predict (st_trace s') = count is_predict (st_trace state0)
    /\ count is_slot_image (st_trace s') = count is_slot_image (st_trace state0)
    /\ count is_error (st_trace s') = count is_error (st_trace state0).
Proof.
  intros u e. apply (small_video_upload_not_decoded 20 (1 # 2) (mkHandle 0 stub_zero) e u state0);
    [reflexivity | reflexivity | vm_compute; discriminate].
Defined.

Lemma video_loop_raises (conf : Q) (model : handle) (f : image) (fs2 : list image) :
  predict (h_net model) (resize f) conf = None ->
  forall (fs1 : list image) (fuel : nat) (s : state),
  cap_opened (st_cap s) = true -> cap_frames (st_cap s) = fs1 ++ f :: fs2 -> length fs1 < fuel ->
  (forall g, In g fs1 -> predict (h_net model) (resize g) conf <> None) ->
  exists s', video_loop fuel conf model s = (RExn ExnPredict, s')
    /\ st_trace s' = st_trace s ++ flat_map (frame_events conf model) fs1
                     ++ [EvCapRead; EvPredict (resize f) conf].
Proof.
  intros Hf. induction fs1 as [|g fs1 IH]; intros fuel [t c ca n] Ho Hc Hl Hp; simpl in *;
    destruct fuel as [|fuel]; try lia; destruct c as [o fs0]; simpl in *; subst.
  - eexists; split.
    + unfold bind, cap_isOpened, cap_read, emit, set_trace, set_cap,
        _display_detected_frames, predict_call, raise. simpl. rewrite Hf. reflexivity.
    + simpl. rewrite <- !app_assoc. reflexivity.
  - unfold frame_events at 1.
    destruct (predict (h_net model) (resize g) conf) as [bs|] eqn:E;
      [|exfalso; apply (Hp g); auto].
    edestruct (IH fuel (mkState (((t ++ [EvCapRead]) ++ [EvPredict (resize g) conf]) ++
                                  [EvSlotImage (plot (resize g) bs)])
                                (mkCapture true (fs1 ++ f :: fs2)) ca n))
      as (s' & Hrun & Ht); simpl; auto; try lia.
    exists s'. split.
    + unfold bind, cap_isOpened, cap_read, emit, set_trace, set_cap,
        _display_detected_frames, predict_call. simpl. rewrite ?E. simpl. exact Hrun.
    + rewrite Ht. simpl. rewrite <- !app_assoc. reflexivity.
Qed.

Lemma webcam_loop_exhausts (conf : Q) (model : handle) :
  forall (fs : list image) (fuel : nat) (s : state),
  cap_opened (st_cap s) = true -> cap_frames (st_cap s) = fs -> length fs < fuel ->
  (forall f, In f fs -> predict (h_net model) (resize f) conf <> None) ->
  exists s', webcam_loop fuel false conf model s = (ROk tt, s')
    /\ st_trace s' = st_trace s ++ flat_map (frame_events conf model) fs ++ [EvCapRead; EvCapRelease]
    /\ cap_opened (st_cap s') = false.
Proof.
  induction fs as [|f fs IH]; intros fuel [t c ca n] Ho Hc Hl Hp; simpl in *;
    destruct fuel as [|fuel]; try lia; destruct c as [o fs0]; simpl in *; subst.
  - eexists; split; [reflexivity|]. simpl. rewrite <- !app_assoc. auto.
  - unfold frame_events at 1.
    destruct (predict (h_net model) (resize f) conf) as [bs|] eqn:E;
      [|exfalso; apply (Hp f); auto].
    edestruct (IH fuel (mkState (((t ++ [EvCapRead]) ++ [EvPredict (resize f) conf]) ++
                                  [EvSlotImage (plot (resize f) bs)]) (mkCapture true fs) ca n))
      as (s' & Hrun & Ht & Ho'); simpl; auto; try lia.
    exists s'. split.
    + unfold bind, cap_read, emit, set_trace, set_cap,
        _display_detected_frames, predict_call. simpl. rewrite ?E. simpl. exact Hrun.
    + rewrite Ht. simpl. rewrite <- !app_assoc. auto.
Qed.

(** C2 (code_bug): the capture handle is released only on the
    failed-read path. An exception from inference inside the video loop,
    the same inside the camera loop, and a run of the camera source with
    the stop button clicked each open one capture and release none. *)
Theorem capture_not_released_on_error_or_stop :
  (let '(r, s) := infer_uploaded_video 20 (1 # 2) (mkHandle 0 stub_fail)
                    (video_env stub_fail (mkCapture true ten_frames) true false SrcVideo) state0 in
   r = ROk tt /\ count is_open (st_trace s) = 1 /\ count is_release (st_trace s) = 0
   /\ count is_error (st_trace s) = 1 /\ cap_opened (st_cap s) = true)
  /\ (let '(r, s) := infer_uploaded_webcam 20 (1 # 2) (mkHandle 0 stub_fail)
                    (video_env stub_fail (mkCapture true ten_frames) false false SrcCamera) state0 in
   r = ROk tt /\ count is_open (st_trace s) = 1 /\ count is_release (st_trace s) = 0
   /\ cap_opened (st_cap s) = true)
  /\ (let '(r, s) := infer_uploaded_webcam 20 (1 # 2) (mkHandle 0 stub_zero)
                    (video_env stub_zero (mkCapture true ten_frames) false true SrcCamera) state0 in
   r = ROk tt /\ count is_open (st_trace s) = 1 /\ count is_release (st_trace s) = 0
   /\ cap_opened (st_cap s) = true).
Proof. vm_compute. repeat split. Qed.

(** C7 (code_bug): a video that OpenCV cannot open is a silent no-op:
    [cv2.VideoCapture] does not raise, [isOpened()] is false, the loop
    never runs, and no [st.error] message is shown. A file that opens but
    yields no frame is released after the first failed read, again
    without any message. *)
Theorem undecodable_video_silent :
  (let '(r, s) := infer_uploaded_video 20 (1 # 2) (mkHandle 0 stub_zero)
                    (video_env stub_zero (mkCapture false []) true false SrcVideo) state0 in
   r = ROk tt /\ st_trace s = [EvShowVideo; EvButton BtnStart; EvCapOpen CapFile; EvEmpty])
  /\ (let '(r, s) := infer_uploaded_video 20 (1 # 2) (mkHandle 0 stub_zero)
                    (video_env stub_zero (mkCapture true []) true false SrcVideo) state0 in
   r = ROk tt /\ st_trace s = [EvShowVideo; EvButton BtnStart; EvCapOpen CapFile; EvEmpty;
                               EvCapRead; EvCapRelease]).
Proof. vm_compute. repeat split. Qed.

(** C6 (corrected): in the video loop, an exception raised by the
    inference of a frame is caught by the [except] around the loop and
    shown as one in-page [st.error] message; the run itself completes
    normally, but the loop ends there: the frames before it were each
    processed once, and no later frame is read or processed. *)
Theorem video_inference_error_reported (fuel : nat) (conf : Q) (model : handle) (e : env)
    (u : upload) (fs1 fs2 : list image) (f : image) (s : state) :
  e_upload e = Some u -> e_start e = true -> (e_tmp_buffer e < up_size u)%N ->
  up_cap u = mkCapture true (fs1 ++ f :: fs2) -> length fs1 < fuel ->
  (forall g, In g fs1 -> predict (h_net model) (resize g) conf <> None) ->
  predict (h_net model) (resize f) conf = None ->
  exists s', infer_uploaded_video fuel conf model e s = (ROk tt, s')
    /\ count is_error (st_trace s') = count is_error (st_trace s) + 1
    /\ count is_read (st_trace s') = count is_read (st_trace s) + S (length fs1)
    /\ count is_predict (st_trace s') = count is_predict (st_trace s) + S (length fs1)
    /\ count is_slot_image (st_trace s') = count is_slot_image (st_trace s) + length fs1.
Proof.
  intros Hu Hs Hb Hc Hl Hp Hf.
  destruct s as [t c ca n].
  edestruct (video_loop_raises conf model f fs2 Hf fs1 fuel
               (mkState (t ++ [EvShowVideo; EvButton BtnStart; EvCapOpen CapFile; EvEmpty])
                        (mkCapture true (fs1 ++ f :: fs2)) ca n))
    as (s' & Hrun & Ht); simpl; auto.
  eexists. split.
  { unfold infer_uploaded_video. rewrite Hu, Hs. unfold bind, emit, st_button, ret at 1. simpl.
    unfold try_except, bind, cap_open, emit, set_trace, set_cap. simpl.
    rewrite (tmp_capture_large _ _ Hb), Hc. simpl.
    rewrite <- !app_assoc. simpl. rewrite Hrun. reflexivity. }
  simpl in Ht. unfold emit, set_trace. simpl. rewrite Ht. autorewrite with counts. simpl.
  rewrite (count_frames conf model is_predict 1 fs1 Hp),
          (count_frames conf model is_slot_image 1 fs1 Hp),
          (count_frames conf model is_read 1 fs1 Hp),
          (count_frames conf model is_error 0 fs1 Hp);
    try (intros g bs E; unfold frame_events; rewrite E; reflexivity).
  repeat split; lia.
Qed.

Lemma video_inference_error_reported_witness :
  exists s', infer_uploaded_video 20 (1 # 2) (mkHandle 0 stub_fail)
               (video_env stub_fail (mkCapture true ten_frames) true false SrcVideo) state0 = (ROk tt, s')
    /\ count is_error (st_trace s') = count is_error (st_trace state0) + 1
    /\ count is_read (st_trace s') = count is_read (st_trace state0) + S (length (@nil image))
    /\ count is_predict (st_trace s') = count is_predict (st_trace state0) + S (length (@nil image))
    /\ count is_slot_image (st_trace s') = count is_slot_image (st_trace state0) + length (@nil image).
Proof.
  apply (video_inference_error_reported 20 (1 # 2) (mkHandle 0 stub_fail) _
           (mkUpload (frame_n 0) (mkCapture true ten_frames) 1000000) [] (tl ten_frames) (frame_n 0) state0);
    try reflexivity.
  - simpl. lia.
  - intros g [].
Defined.

(** C3 (code_bug): the stop signal is the stop button's value, read once
    when the run starts and tested before every read. With it set, the
    run reads and processes no frame, but [cv2.VideoCapture(0)] has
    already opened the device and nothing releases it: the handle is
    left open, one open and no release. *)
Theorem webcam_stop_never_released (fuel : nat) (conf : Q) (model : handle) (e : env) (s : state) :
  e_stop e = true ->
  exists s', infer_uploaded_webcam fuel conf model e s = (ROk tt, s')
    /\ st_trace s' = st_trace s ++ [EvButton BtnStop; EvCapOpen CapCamera; EvEmpty]
    /\ count is_read (st_trace s') = count is_read (st_trace s)
    /\ count is_predict (st_trace s') = count is_predict (st_trace s)
    /\ count is_open (st_trace s') = count is_open (st_trace s) + 1
    /\ count is_release (st_trace s') = count is_release (st_trace s)
    /\ st_cap s' = e_camera e.
Proof.
  intros Hstop. destruct s as [t c ca n]. eexists. split.
  - unfold infer_uploaded_webcam, try_except, bind, st_button, emit, ret, cap_open,
      set_trace, set_cap. simpl. rewrite Hstop. destruct fuel; simpl; reflexivity.
  - simpl. rewrite <- !app_assoc. simpl. autorewrite with counts. simpl. repeat split; lia.
Qed.

Lemma webcam_stop_never_released_witness :
  let e := video_env stub_zero (mkCapture true ten_frames) false true SrcCamera in
  exists s', infer_uploaded_webcam 20 (1 # 2) (mkHandle 0 stub_zero) e state0 = (ROk tt, s')
    /\ st_trace s' = st_trace state0 ++ [EvButton BtnStop; EvCapOpen CapCamera; EvEmpty]
    /\ count is_read (st_trace s') = count is_read (st_trace state0)
    /\ count is_predict (st_trace s') = count is_predict (st_trace state0)
    /\ count is_open (st_trace s') = count is_open (st_trace state0) + 1
    /\ count is_release (st_trace s') = count is_release (st_trace state0)
    /\ st_cap s' = e_camera e.
Proof. intros e. apply (webcam_stop_never_released 20 (1 # 2) (mkHandle 0 stub_zero) e state0). reflexivity. Defined.

(* ------------------------------------------------------------------ *)
(** ** Compositional reasoning on emitted events and on the cache *)

Section Emits.
Variable P : event -> Prop.

Lemma emits_ret {A} (a : A) : emits P (ret a).
Proof. intros s. exists []. rewrite app_nil_r. auto. Qed.

Lemma emits_raise {A} (x : exn) : emits P (@raise A x).
Proof. intros s. exists []. rewrite app_nil_r. auto. Qed.

Lemma emits_fuel {A} : emits P (@out_of_fuel A).
Proof. intros s. exists []. rewrite app_nil_r. auto. Qed.

Lemma emits_emit (e : event) : P e -> emits P (emit e).
Proof. intros He s. exists [e]. auto. Qed.

Lemma emits_bind {A B} (m : M A) (k : A -> M B) :
  emits P m -> (forall a, emits P (k a)) -> emits P (bind m k).
Proof.
  intros Hm Hk s. unfold bind. destruct (Hm s) as (l1 & Ht1 & Hf1).
  destruct (m s) as [[a|x|] s1]; simpl in *.
  - destruct (Hk a s1) as (l2 & Ht2 & Hf2). exists (l1 ++ l2).
    rewrite Ht2, Ht1, app_assoc. split; [reflexivity|]. apply Forall_app; auto.
  - exists l1; auto.
  - exists l1; auto.
Qed.

Lemma emits_try {A} (m : M A) (h : exn -> M A) :
  emits P m -> (forall x, emits P (h x)) -> emits P (try_except m h).
Proof.
  intros Hm Hh s. unfold try_except. destruct (Hm s) as (l1 & Ht1 & Hf1).
  destruct (m s) as [[a|x|] s1]; simpl in *; try (exists l1; auto; fail).
  destruct (Hh x s1) as (l2 & Ht2 & Hf2). exists (l1 ++ l2).
  rewrite Ht2, Ht1, app_assoc. split; [reflexivity|]. apply Forall_app; auto.
Qed.

Lemma emits_for_each {A} (f : A -> M unit) (l : list A) :
  (forall x, In x l -> emits P (f x)) -> emits P (for_each f l).
Proof.
  induction l as [|x l IH]; intros Hf; simpl.
  - apply emits_ret.
  - apply emits_bind; [apply Hf; simpl; auto|]. intros _. apply IH. intros y Hy. apply Hf. simpl; auto.
Qed.

Lemma emits_state (f : state -> state) :
  (forall s, st_trace (f s) = st_trace s) -> emits P (fun s => (ROk tt, f s)).
Proof. intros Hf s. exists []. rewrite app_nil_r. simpl. auto. Qed.

Lemma emits_cap_isOpened : emits P cap_isOpened.
Proof. intros s. exists []. rewrite app_nil_r. auto. Qed.

Lemma emits_cap_read : P EvCapRead -> emits P cap_read.
Proof.
  intros Hr. unfold cap_read. apply emits_bind; [apply emits_emit; auto|]. intros _ s.
  exists []. rewrite app_nil_r. unfold cap_read_result.
  destruct (cap_opened (st_cap s)); [destruct (cap_frames (st_cap s))|]; simpl; auto.
Qed.

Lemma emits_predict_bind {B} (model : handle) (i : image) (c : Q) (k : list box -> M B) :
  P (EvPredict i c) ->
  (forall bs, predict (h_net model) i c = Some bs -> emits P (k bs)) ->
  emits P (bind (predict_call model i c) k).
Proof.
  intros Hp Hk s. unfold predict_call, bind at 1.
  destruct (emits_emit _ Hp s) as (l1 & Ht1 & Hf1). unfold emit in *. simpl in *.
  destruct (predict (h_net model) i c) as [bs|] eqn:E; simpl.
  - destruct (Hk bs eq_refl (set_trace (st_trace s ++ [EvPredict i c]) s)) as (l2 & Ht2 & Hf2).
    exists ([EvPredict i c] ++ l2). rewrite Ht2. simpl. rewrite <- app_assoc.
    split; [reflexivity|]. constructor; auto.
  - exists [EvPredict i c]. auto.
Qed.

Lemma emits_button {B} (b : button) (v : bool) (k : bool -> M B) :
  P (EvButton b) -> emits P (k v) -> emits P (bind (st_button b v) k).
Proof.
  intros Hb Hk s. unfold st_button, bind, emit, ret. simpl.
  destruct (Hk (set_trace (st_trace s ++ [EvButton b]) s)) as (l & Ht & Hf).
  exists (EvButton b :: l). simpl in Ht. rewrite Ht, <- app_assoc. auto.
Qed.

End Emits.

Lemma emits_load_model (P : event -> Prop) (w : string -> option yolo) (p : string) :
  P (EvLoadFile p) -> emits P (load_model w p).
Proof.
  intros Hp s. unfold load_model.
  destruct (st_cache s !! p); [exists []; rewrite app_nil_r; auto|].
  exists [EvLoadFile p]. destruct (w p); simpl; auto.
Qed.

Create HintDb emits.
#[local] Hint Resolve emits_ret emits_raise emits_fuel emits_emit emits_cap_isOpened
  emits_cap_read : emits.

(** Decompose a program into its primitive steps. *)
Ltac emits_tac :=
  repeat (cbv beta iota zeta;
    match goal with
    | |- emits _ (bind (predict_call _ _ _) _) =>
        apply emits_predict_bind; [| let bs := fresh "bs" in let Hbs := fresh "Hbs" in intros bs Hbs]
    | |- emits _ (bind (st_button _ _) _) =>
        apply emits_button; [|cbv beta iota]
    | |- emits _ (bind _ _) => apply emits_bind; [| intros ?]
    | |- emits _ (try_except _ _) => apply emits_try; [| intros ?]
    | |- emits _ (for_each _ _) => apply emits_for_each; intros ? ?
    | |- emits _ (st_button _ _) => unfold st_button
    | |- emits _ (cap_open _ _) => unfold cap_open
    | |- emits _ cap_release => unfold cap_release
    | |- emits _ (fun s => (ROk tt, _)) => apply emits_state; reflexivity
    | |- emits _ (load_model _ _) => apply emits_load_model
    | |- emits _ (emit _) => apply emits_emit
    | |- emits _ (match ?x with _ => _ end) => destruct x
    | |- emits _ (if ?b then _ else _) => destruct b
    | |- emits _ _ => solve [eauto with emits]
    end).

Section Loops.
Variable P : event -> Prop.
Variable conf : Q.
Variable model : handle.
Hypothesis HP_read : P EvCapRead.
Hypothesis HP_release : P EvCapRelease.
Hypothesis HP_predict : forall i, P (EvPredict (resize i) conf).
Hypothesis HP_slot : forall i bs, predict (h_net model) (resize i) conf = Some bs ->
  P (EvSlotImage (plot (resize i) bs)).

Lemma emits_display (i : image) : emits P (_display_detected_frames conf model i).
Proof. unfold _display_detected_frames. emits_tac; auto. Qed.

Lemma emits_video_loop (fuel : nat) : emits P (video_loop fuel conf model).
Proof.
  induction fuel as [|fuel IH]; simpl; emits_tac; auto using emits_display.
Qed.

Lemma emits_webcam_loop (fuel : nat) (flag : bool) : emits P (webcam_loop fuel flag conf model).
Proof.
  induction fuel as [|fuel IH]; simpl; emits_tac; auto using emits_display.
Qed.
End Loops.

Lemma emits_read_model (P : event -> Prop) (model : option handle) : emits P (read_model model).
Proof. unfold read_model. emits_tac. Qed.

#[local] Hint Resolve emits_read_model : emits.

Lemma emits_infer_image (P : event -> Prop) (conf : Q) (model : handle) (e : env) :
  P EvColumns -> (forall i, P (EvShowUpload i)) -> P (EvButton BtnStart) ->
  (forall i, P (EvPredict i conf)) ->
  (forall i bs, predict (h_net model) i conf = Some bs -> P (EvShowResult (plot i bs))) ->
  (forall n, P (EvWriteBox n)) -> P EvWriteMsg ->
  emits P (infer_uploaded_image conf model e).
Proof. intros. unfold infer_uploaded_image. emits_tac; auto. Qed.

Lemma emits_infer_video (P : event -> Prop) (fuel : nat) (conf : Q) (model : handle) (e : env) :
  P EvShowVideo -> P (EvButton BtnStart) -> P (EvCapOpen CapFile) -> P EvEmpty ->
  P (EvError ErrLoadVideo) -> P EvCapRead -> P EvCapRelease ->
  (forall i, P (EvPredict (resize i) conf)) ->
  (forall i bs, predict (h_net model) (resize i) conf = Some bs ->
     P (EvSlotImage (plot (resize i) bs))) ->
  emits P (infer_uploaded_video fuel conf model e).
Proof. intros. unfold infer_uploaded_video. emits_tac; auto using emits_video_loop. Qed.

Lemma emits_infer_webcam (P : event -> Prop) (fuel : nat) (conf : Q) (model : handle) (e : env) :
  P (EvButton BtnStop) -> P (EvCapOpen CapCamera) -> P EvEmpty ->
  P (EvError ErrLoadVideo) -> P EvCapRead -> P EvCapRelease ->
  (forall i, P (EvPredict (resize i) conf)) ->
  (forall i bs, predict (h_net model) (resize i) conf = Some bs ->
     P (EvSlotImage (plot (resize i) bs))) ->
  emits P (infer_uploaded_webcam fuel conf model e).
Proof. intros. unfold infer_uploaded_webcam. emits_tac; auto using emits_webcam_loop. Qed.

(** C4: the code forwards the threshold [conf] it is given, unchanged, to
    [model.predict] in image, video and camera mode, and displays the
    boxes [predict] returned without adding any. So whenever the network
    keeps only candidates of confidence at least the [conf] it is passed
    (the post-processing the code delegates to it), every box of every
    displayed detection result has confidence at least [t], in all three
    modes. *)
Theorem displayed_boxes_above_threshold (model : handle) (t : Q) (fuel : nat) (e : env) :
  (forall i c bs, predict (h_net model) i c = Some bs -> Forall (fun b => Qle c (box_conf b)) bs) ->
  emits (boxes_above t) (infer_uploaded_image t model e)
  /\ emits (boxes_above t) (infer_uploaded_video fuel t model e)
  /\ emits (boxes_above t) (infer_uploaded_webcam fuel t model e).
Proof.
  intros Hf. split; [|split].
  - apply emits_infer_image; simpl; eauto.
  - apply emits_infer_video; simpl; eauto.
  - apply emits_infer_webcam; simpl; eauto.
Qed.

(** A network that keeps the candidates reaching the threshold. *)
Definition filtering_net (cands : list box) : yolo :=
  mkYolo (fun _ c => Some (List.filter (fun b => Qle_bool c (box_conf b)) cands)).

Lemma filtering_net_filters (cands : list box) :
  forall i c bs, predict (filtering_net cands) i c = Some bs ->
  Forall (fun b => Qle c (box_conf b)) bs.
Proof.
  intros i c bs H. simpl in H. injection H as <-.
  apply List.Forall_forall. intros b Hb. apply List.filter_In in Hb as [_ Hb].
  apply Qle_bool_iff. exact Hb.
Qed.

Lemma displayed_boxes_above_threshold_witness :
  let model := mkHandle 0 (filtering_net [mkBox 1 (1 # 4); mkBox 2 (3 # 4)]) in
  emits (boxes_above (1 # 2)) (infer_uploaded_image (1 # 2) model
                                 (video_env stub_zero (mkCapture true ten_frames) true false SrcVideo))
  /\ emits (boxes_above (1 # 2)) (infer_uploaded_video 20 (1 # 2) model
                                 (video_env stub_zero (mkCapture true ten_frames) true false SrcVideo))
  /\ emits (boxes_above (1 # 2)) (infer_uploaded_webcam 20 (1 # 2) model
                                 (video_env stub_zero (mkCapture true ten_frames) true false SrcVideo)).
Proof.
  apply displayed_boxes_above_threshold. apply filtering_net_filters.
Defined.

(** C9: the slider value [k] (Streamlit keeps it in 30..100) becomes
    the rational [k/100]; that single value, which lies in [0.30, 1.00],
    is the [conf] of every [model.predict] call of the run, whatever the
    source. *)
Theorem confidence_uniform (fuel : nat) (e : env) :
  (30 <= e_slider e <= 100)%Z ->
  emits (conf_is (confidence_of (e_slider e))) (app_run fuel e)
  /\ (confidence_of (e_slider e) == inject_Z (e_slider e) / inject_Z 100)%Q
  /\ (3 # 10 <= confidence_of (e_slider e) <= 1)%Q.
Proof.
  intros Hk. split; [|split].
  - unfold app_run. emits_tac; simpl; auto;
      first [ apply emits_infer_image | apply emits_infer_video | apply emits_infer_webcam ];
      simpl; auto.
  - unfold confidence_of, Qeq, Qdiv, Qmult, Qinv. simpl. lia.
  - unfold confidence_of, Qle. simpl. lia.
Qed.

Lemma confidence_uniform_witness :
  let e := video_env stub_zero (mkCapture true ten_frames) true false SrcVideo in
  (30 <= e_slider e <= 100)%Z /\
  (emits (conf_is (confidence_of (e_slider e))) (app_run 20 e)
   /\ (confidence_of (e_slider e) == inject_Z (e_slider e) / inject_Z 100)%Q
   /\ (3 # 10 <= confidence_of (e_slider e) <= 1)%Q).
Proof.
  simpl. split; [lia|]. apply (confidence_uniform 20). simpl. lia.
Defined.

Lemma bind_emit {A B} (e : event) (m : M A) (k : A -> M B) (s : state) :
  bind (bind (emit e) (fun _ => m)) k s = bind m k (set_trace (st_trace s ++ [e]) s).
Proof. reflexivity. Qed.

Lemma emits_cap_read_result (P : event -> Prop) : emits P cap_read_result.
Proof.
  intros s. exists []. rewrite app_nil_r. unfold cap_read_result.
  destruct (cap_opened (st_cap s)); [destruct (cap_frames (st_cap s))|]; simpl; auto.
Qed.

Lemma webcam_loop_reads_first (n : nat) (conf : Q) (model : handle) (s : state) :
  exists l, st_trace (snd (webcam_loop (S n) false conf model s)) = st_trace s ++ EvCapRead :: l
    /\ Forall not_start_button l.
Proof.
  cbn [webcam_loop negb]. unfold cap_read. rewrite bind_emit.
  assert (H : emits not_start_button
                (bind cap_read_result (fun r => match r with
                  | Some image => _display_detected_frames conf model image ;;
                                  webcam_loop n false conf model
                  | None => cap_release end))).
  { apply emits_bind; [apply emits_cap_read_result|]. intros [i|];
      [apply emits_bind; [apply emits_display|intros _; apply emits_webcam_loop]|unfold cap_release; emits_tac];
      simpl; auto. }
  destruct (H (set_trace (st_trace s ++ [EvCapRead]) s)) as (l & Ht & Hf).
  exists l. rewrite Ht. simpl. rewrite <- app_assoc. auto.
Qed.

(** C10: for the image and video sources nothing is inferred, shown as a
    result or captured unless a file is uploaded and the start button was
    clicked in this run. The camera source renders only the stop button,
    opens device 0 right away and, unless stop was clicked, goes on to
    read from it at once. *)
Theorem start_gated_camera_immediate :
  (forall (fuel : nat) (conf : Q) (model : handle) (e : env),
     e_upload e = None \/ e_start e = false ->
     emits no_inference (infer_uploaded_image conf model e)
     /\ emits no_inference (infer_uploaded_video fuel conf model e))
  /\ (forall (fuel : nat) (conf : Q) (model : handle) (e : env) (s : state),
     exists l, st_trace (snd (infer_uploaded_webcam fuel conf model e s))
                 = st_trace s ++ EvButton BtnStop :: EvCapOpen CapCamera :: EvEmpty :: l
       /\ Forall not_start_button l
       /\ (e_stop e = false -> 0 < fuel -> hd_error l = Some EvCapRead)).
Proof.
  split.
  - intros fuel conf model e H. unfold infer_uploaded_image, infer_uploaded_video.
    destruct (e_upload e) as [u|] eqn:Hu;
      [destruct H as [H|H]; [discriminate|rewrite H]|];
      split; emits_tac; simpl; auto.
  - intros fuel conf model e s.
    set (s1 := mkState (((st_trace s ++ [EvButton BtnStop]) ++ [EvCapOpen CapCamera]) ++ [EvEmpty])
                       (e_camera e) (st_cache s) (st_next s)).
    assert (Heq : infer_uploaded_webcam fuel conf model e s =
              match webcam_loop fuel (e_stop e) conf model s1 with
              | (RExn x, s') => emit (EvError ErrLoadVideo) s'
              | r => r
              end) by reflexivity.
    rewrite Heq.
    destruct (emits_webcam_loop not_start_button conf model I I (fun _ => I) (fun _ _ _ => I)
                fuel (e_stop e) s1) as (l2 & Ht2 & Hf2).
    assert (Hhd : e_stop e = false -> 0 < fuel -> hd_error l2 = Some EvCapRead).
    { intros Hstop Hfuel. destruct fuel as [|n]; [lia|]. rewrite Hstop in Ht2.
      destruct (webcam_loop_reads_first n conf model s1) as (l3 & Ht3 & _).
      rewrite Ht3 in Ht2. apply app_inv_head in Ht2. rewrite <- Ht2. reflexivity. }
    destruct (webcam_loop fuel (e_stop e) conf model s1) as [[a|x|] s2]; simpl in *.
    + exists l2. rewrite Ht2. unfold s1. simpl. rewrite <- !app_assoc. auto.
    + exists (l2 ++ [EvError ErrLoadVideo]). rewrite Ht2. unfold s1. simpl.
      rewrite <- !app_assoc. simpl. split; [reflexivity|]. split.
      * apply Forall_app. split; [exact Hf2|repeat constructor].
      * intros Hstop Hfuel. specialize (Hhd Hstop Hfuel).
        destruct l2; [discriminate|]. exact Hhd.
    + exists l2. rewrite Ht2. unfold s1. simpl. rewrite <- !app_assoc. auto.
Qed.

Lemma start_gated_camera_immediate_witness :
  (emits no_inference (infer_uploaded_image (1 # 2) (mkHandle 0 stub_zero)
                         (video_env stub_zero (mkCapture true ten_frames) false false SrcImage))
   /\ emits no_inference (infer_uploaded_video 20 (1 # 2) (mkHandle 0 stub_zero)
                         (video_env stub_zero (mkCapture true ten_frames) false false SrcImage)))
  /\ (exists l, st_trace (snd (infer_uploaded_webcam 20 (1 # 2) (mkHandle 0 stub_zero)
                         (video_env stub_zero (mkCapture true ten_frames) false false SrcCamera) state0))
                 = st_trace state0 ++ EvButton BtnStop :: EvCapOpen CapCamera :: EvEmpty :: l
       /\ Forall not_start_button l
       /\ (e_stop (video_env stub_zero (mkCapture true ten_frames) false false SrcCamera) = false ->
           0 < 20 -> hd_error l = Some EvCapRead)).
Proof.
  split.
  - apply (proj1 start_gated_camera_immediate). right. reflexivity.
  - apply (proj2 start_gated_camera_immediate).
Defined.

(* ------------------------------------------------------------------ *)
(** ** State invariants that only the model loader can break *)

Section Preserve.
Variable Inv : state -> Prop.
Hypothesis I_emit : forall s e, no_load e -> Inv s -> Inv (set_trace (st_trace s ++ [e]) s).
Hypothesis I_cap : forall s c, Inv s -> Inv (set_cap c s).

Lemma pres_ret {A} (a : A) : preserves Inv (ret a).
Proof. intros s H. exact H. Qed.

Lemma pres_raise {A} (x : exn) : preserves Inv (@raise A x).
Proof. intros s H. exact H. Qed.

Lemma pres_fuel {A} : preserves Inv (@out_of_fuel A).
Proof. intros s H. exact H. Qed.

Lemma pres_emit (e : event) : no_load e -> preserves Inv (emit e).
Proof. intros He s H. apply I_emit; auto. Qed.

Lemma pres_bind {A B} (m : M A) (k : A -> M B) :
  preserves Inv m -> (forall a, preserves Inv (k a)) -> preserves Inv (bind m k).
Proof.
  intros Hm Hk s H. unfold bind. specialize (Hm s H).
  destruct (m s) as [[a|x|] s1]; simpl in *; auto. apply Hk; auto.
Qed.

Lemma pres_try {A} (m : M A) (h : exn -> M A) :
  preserves Inv m -> (forall x, preserves Inv (h x)) -> preserves Inv (try_except m h).
Proof.
  intros Hm Hh s H. unfold try_except. specialize (Hm s H).
  destruct (m s) as [[a|x|] s1]; simpl in *; auto. apply Hh; auto.
Qed.

Lemma pres_for_each {A} (f : A -> M unit) (l : list A) :
  (forall x, In x l -> preserves Inv (f x)) -> preserves Inv (for_each f l).
Proof.
  induction l as [|x l IH]; intros Hf; simpl.
  - apply pres_ret.
  - apply pres_bind; [apply Hf; simpl; auto|]. intros _. apply IH. intros y Hy. apply Hf. simpl; auto.
Qed.

Lemma pres_set_cap (c : capture) : preserves Inv (fun s => (ROk tt, set_cap c s)).
Proof. intros s H. apply I_cap. exact H. Qed.

Lemma pres_cap_isOpened : preserves Inv cap_isOpened.
Proof. intros s H. exact H. Qed.

Lemma pres_cap_read_result : preserves Inv cap_read_result.
Proof.
  intros s H. unfold cap_read_result.
  destruct (cap_opened (st_cap s)); [destruct (cap_frames (st_cap s))|]; simpl; auto.
Qed.

Lemma pres_release_state : preserves Inv (fun s => (ROk tt, set_cap (mkCapture false (cap_frames (st_cap s))) s)).
Proof. intros s H. apply I_cap. exact H. Qed.

Lemma pres_read_model (model : option handle) : preserves Inv (read_model model).
Proof. destruct model; [apply pres_ret|apply pres_raise]. Qed.

End Preserve.

Create HintDb pres.
#[local] Hint Resolve pres_ret pres_raise pres_fuel pres_cap_isOpened pres_cap_read_result
  pres_release_state pres_read_model pres_set_cap : pres.

Ltac pres_tac :=
  repeat (cbv beta iota zeta;
    match goal with
    | |- preserves _ (bind _ _) => apply pres_bind; [| intros ?]
    | |- preserves _ (try_except _ _) => apply pres_try; [| intros ?]
    | |- preserves _ (for_each _ _) => apply pres_for_each; intros ? ?
    | |- preserves _ (st_button _ _) => unfold st_button
    | |- preserves _ (cap_open _ _) => unfold cap_open
    | |- preserves _ cap_release => unfold cap_release
    | |- preserves _ cap_read => unfold cap_read
    | |- preserves _ (predict_call _ _ _) => unfold predict_call
    | |- preserves _ (_display_detected_frames _ _ _) => unfold _display_detected_frames
    | |- preserves _ (emit _) => apply pres_emit; try assumption; try exact Logic.I
    | |- preserves _ (match ?x with _ => _ end) => destruct x
    | |- preserves _ (if ?b then _ else _) => destruct b
    | |- preserves _ _ => solve [eauto with pres]
    end).

Section PreserveCode.
Variable Inv : state -> Prop.
Hypothesis I_emit : forall s e, no_load e -> Inv s -> Inv (set_trace (st_trace s ++ [e]) s).
Hypothesis I_cap : forall s c, Inv s -> Inv (set_cap c s).

Lemma pres_video_loop (fuel : nat) (conf : Q) (model : handle) :
  preserves Inv (video_loop fuel conf model).
Proof. induction fuel; simpl; pres_tac. Qed.

Lemma pres_webcam_loop (fuel : nat) (flag : bool) (conf : Q) (model : handle) :
  preserves Inv (webcam_loop fuel flag conf model).
Proof. induction fuel; simpl; pres_tac. Qed.

Lemma pres_infer_image (conf : Q) (model : handle) (e : env) :
  preserves Inv (infer_uploaded_image conf model e).
Proof. unfold infer_uploaded_image. pres_tac. Qed.

Lemma pres_infer_video (fuel : nat) (conf : Q) (model : handle) (e : env) :
  preserves Inv (infer_uploaded_video fuel conf model e).
Proof. unfold infer_uploaded_video. pres_tac; apply pres_video_loop; auto. Qed.

Lemma pres_infer_webcam (fuel : nat) (conf : Q) (model : handle) (e : env) :
  preserves Inv (infer_uploaded_webcam fuel conf model e).
Proof. unfold infer_uploaded_webcam. pres_tac; apply pres_webcam_loop; auto. Qed.
End PreserveCode.

Lemma count_load_no_load (p : string) (e : event) :
  no_load e -> count (is_load_file p) [e] = 0.
Proof. destruct e; simpl; tauto. Qed.

Lemma count_load_other (p q : string) :
  p <> q -> count (is_load_file p) [EvLoadFile q] = 0.
Proof. intros H. unfold count. simpl. apply String.eqb_neq in H. rewrite H. reflexivity. Qed.

Lemma count_load_same (p : string) : count (is_load_file p) [EvLoadFile p] = 1.
Proof. unfold count. simpl. rewrite String.eqb_refl. reflexivity. Qed.

(** Invariant: the entry of [p] is [h] and [p] was read [n] times. *)
Definition cached_inv (p : string) (h : handle) (n : nat) (s : state) : Prop :=
  st_cache s !! p = Some h /\ count (is_load_file p) (st_trace s) = n.

(** Invariant: [p] is not cached and was read [n] times, or it is cached
    and was read at most [n + 1] times. *)
Definition once_inv (p : string) (n : nat) (s : state) : Prop :=
  (st_cache s !! p = None /\ count (is_load_file p) (st_trace s) = n)
  \/ (st_cache s !! p <> None /\ count (is_load_file p) (st_trace s) <= S n).

Lemma cached_inv_emit (p : string) (h : handle) (n : nat) :
  forall s e, no_load e -> cached_inv p h n s -> cached_inv p h n (set_trace (st_trace s ++ [e]) s).
Proof.
  intros s e He [Hc Hn]. split; simpl; auto.
  rewrite count_app, count_load_no_load by exact He. lia.
Qed.

Lemma once_inv_emit (p : string) (n : nat) :
  forall s e, no_load e -> once_inv p n s -> once_inv p n (set_trace (st_trace s ++ [e]) s).
Proof.
  intros s e He H. unfold once_inv in *. simpl.
  rewrite count_app, count_load_no_load by exact He. rewrite Nat.add_0_r. exact H.
Qed.

Lemma cached_inv_load (p : string) (h : handle) (n : nat) (w : string -> option yolo) (q : string) :
  preserves (cached_inv p h n) (load_model w q).
Proof.
  intros [t c ca nx] [Hc Hn]. unfold load_model. simpl in *.
  destruct (ca !! q) as [h'|] eqn:Hq; [split; auto|].
  assert (Hpq : p <> q) by (intros ->; congruence).
  destruct (w q); split; simpl; auto;
    try (rewrite lookup_insert_ne by congruence; exact Hc);
    rewrite count_app, count_load_other by exact Hpq; lia.
Qed.

Lemma once_inv_load (p : string) (n : nat) (w : string -> option yolo) (q : string) :
  (q = p -> w p <> None) -> preserves (once_inv p n) (load_model w q).
Proof.
  intros Hw [t c ca nx] H. unfold load_model. simpl in *.
  destruct (ca !! q) as [h'|] eqn:Hq; [exact H|].
  destruct (String.eq_dec p q) as [<-|Hpq].
  - destruct (w p) as [y|] eqn:Ey; [|exfalso; apply Hw; auto].
    unfold once_inv in *; simpl in *. right. rewrite lookup_insert_eq. split; [discriminate|].
    rewrite count_app, count_load_same. destruct H as [[_ H]|[H _]]; [lia|congruence].
  - unfold once_inv in *; simpl in *.
    destruct (w q); simpl; rewrite count_app, count_load_other by exact Hpq;
      rewrite ?lookup_insert_ne by congruence; rewrite Nat.add_0_r; exact H.
Qed.

Lemma pres_app_run (Inv : state -> Prop) (fuel : nat) (e : env) :
  (forall s e, no_load e -> Inv s -> Inv (set_trace (st_trace s ++ [e]) s)) ->
  (forall s c, Inv s -> Inv (set_cap c s)) ->
  (forall q, preserves Inv (load_model (e_weights e) q)) ->
  preserves Inv (app_run fuel e).
Proof.
  intros He Hc Hl. unfold app_run. pres_tac;
    first [ apply Hl | apply pres_infer_image | apply pres_infer_video | apply pres_infer_webcam ];
    auto.
Qed.

(** C5: [load_model] is cached per path for the life of the process.
    A call that returned handle [h] leaves [h] stored under the path, and
    the next call with the same path returns that very handle (same
    [h_id]) without reading the file or changing the state. Across any
    number of later script runs the stored handle stays the same and the
    file is not read again; and if every run can load the file, it is
    read at most once over all these runs. *)
Theorem load_model_cached (w : string -> option yolo) (p : string) :
  (forall s h s1, load_model w p s = (ROk h, s1) ->
     st_cache s1 !! p = Some h /\ load_model w p s1 = (ROk h, s1))
  /\ (forall fuel es s h, st_cache s !! p = Some h ->
     st_cache (snd (runs fuel es s)) !! p = Some h
     /\ count (is_load_file p) (st_trace (snd (runs fuel es s))) = count (is_load_file p) (st_trace s))
  /\ (forall fuel es s, (forall e, In e es -> e_weights e p <> None) -> st_cache s !! p = None ->
     count (is_load_file p) (st_trace (snd (runs fuel es s))) <= S (count (is_load_file p) (st_trace s))).
Proof.
  split; [|split].
  - intros [t c ca nx] h s1. unfold load_model. simpl.
    destruct (ca !! p) as [h'|] eqn:Hp.
    + intros [= <- <-]. simpl. rewrite Hp. auto.
    + destruct (w p) as [y|]; [|discriminate]. intros [= <- <-]. simpl.
      rewrite lookup_insert_eq. auto.
  - intros fuel es s h Hh.
    apply (pres_for_each (cached_inv p h (count (is_load_file p) (st_trace s)))).
    + intros e _. apply pres_app_run; auto using cached_inv_emit, cached_inv_load.
    + split; auto.
  - intros fuel es s Hw Hn.
    assert (Hinv : once_inv p (count (is_load_file p) (st_trace s)) (snd (runs fuel es s))).
    { unfold runs. apply (pres_for_each (once_inv p (count (is_load_file p) (st_trace s)))).
      - intros e He. apply pres_app_run;
          [ apply once_inv_emit | intros s' c H; exact H
          | intros q; apply once_inv_load; intros _; apply Hw; auto ].
      - left. auto. }
    destruct Hinv as [[_ H]|[_ H]]; lia.
Qed.

Lemma load_model_cached_witness :
  let W := fun _ : string => Some stub_zero in
  let P := "weights/detection/yolov8n.pt"%string in
  let H := mkHandle 0 stub_zero in
  let S1 := mkState [EvLoadFile P] (mkCapture false []) (<[P := H]> ∅) 1 in
  let E := video_env stub_zero (mkCapture true ten_frames) true false SrcVideo in
  (st_cache S1 !! P = Some H /\ load_model W P S1 = (ROk H, S1))
  /\ (st_cache (snd (runs 20 [E; E] S1)) !! P = Some H
      /\ count (is_load_file P) (st_trace (snd (runs 20 [E; E] S1)))
         = count (is_load_file P) (st_trace S1))
  /\ count (is_load_file P) (st_trace (snd (runs 20 [E; E] state0)))
     <= S (count (is_load_file P) (st_trace state0)).
Proof.
  intros W P H S1 E. split; [|split].
  - apply (proj1 (load_model_cached W P) state0). vm_compute. reflexivity.
  - apply (proj1 (proj2 (load_model_cached W P))). vm_compute. reflexivity.
  - apply (proj2 (proj2 (load_model_cached W P))).
    + intros e He. simpl in He. destruct He as [<-|[<-|[]]]; simpl; discriminate.
    + vm_compute. reflexivity.
Defined.

(** C8: when [YOLO(model_path)] raises and nothing is cached under the
    path, the run shows the load error exactly once, leaves nothing
    cached under the path, and stops with the [NameError] of the unbound
    [model] when the chosen source is dispatched, before any inference. *)
Theorem load_failure_no_inference (fuel : nat) (e : env) (s : state) :
  e_weights e (selected_path e) = None -> st_cache s !! selected_path e = None ->
  e_source e <> SrcOther ->
  exists s', app_run fuel e s = (RExn ExnNameError, s')
    /\ (exists l, st_trace s' = st_trace s ++ l
          /\ count is_load_error l = 1 /\ count is_predict l = 0)
    /\ st_cache s' !! selected_path e = None.
Proof.
  intros Hw Hc Hsrc. unfold selected_path in *. unfold app_run.
  destruct (e_model_type e) as [mt|];
    [destruct (String.eqb mt "")|];
    unfold bind, emit, ret, try_except, load_model, read_model, raise, set_trace; simpl;
    rewrite ?Hc, ?Hw; simpl;
    (destruct (e_source e); [| | | congruence]);
    eexists; (split; [reflexivity|]); simpl;
    (split; [eexists; split; [rewrite <- !app_assoc; reflexivity|]; simpl; auto|exact Hc]).
Qed.

Lemma load_failure_no_inference_witness :
  let e := mkEnv (Some "missing.pt"%string) "weights/detection"%string 50 SrcImage None false false
                 (mkCapture false []) (fun _ => None) 4096 in
  e_weights e (selected_path e) = None /\ st_cache state0 !! selected_path e = None
  /\ e_source e <> SrcOther /\
  exists s', app_run 20 e state0 = (RExn ExnNameError, s')
    /\ (exists l, st_trace s' = st_trace state0 ++ l
          /\ count is_load_error l = 1 /\ count is_predict l = 0)
    /\ st_cache s' !! selected_path e = None.
Proof.
  intros e. split; [reflexivity|]. split; [reflexivity|]. split; [discriminate|].
  apply load_failure_no_inference; [reflexivity | reflexivity | discriminate].
Defined.

(** C6, counterexample: when only the first of ten frames fails in
    inference, the nine later frames are not processed (one inference
    call, no slot update); and in the image source the exception of
    [model.predict] is not caught: the run ends with it. *)
Lemma inference_error_not_skipped :
  (let '(r, s) := app_run 20 (video_env fail_first (mkCapture true ten_frames) true false SrcVideo)
                    state0 in
   r = ROk tt /\ count is_predict (st_trace s) = 1 /\ count is_slot_image (st_trace s) = 0
   /\ count is_error (st_trace s) = 1)
  /\ (let '(r, s) := app_run 20 (video_env fail_first (mkCapture true ten_frames) true false SrcImage)
                    state0 in
   r = RExn ExnPredict /\ count is_error (st_trace s) = 0).
Proof. vm_compute. repeat split. Qed.

(* ------------------------------------------------------------------ *)
(** ** Further properties of [utils.py] and [app.py] *)

Lemma for_each_emit_write (bs : list box) (s : state) :
  for_each (fun b => emit (EvWriteBox (box_xywh b))) bs s
  = (ROk tt, set_trace (st_trace s ++ map (fun b => EvWriteBox (box_xywh b)) bs) s).
Proof.
  revert s. induction bs as [|b bs IH]; intros [t c ca n]; simpl.
  - rewrite app_nil_r. reflexivity.
  - unfold bind, emit at 1. simpl. rewrite IH. simpl. rewrite <- app_assoc. reflexivity.
Qed.

(** Image source, uploaded and started: one [model.predict] on the
    uploaded image at its own resolution, the result shown in the second
    column, and one "position and size" line per returned box, in order. *)
Theorem image_run_success (conf : Q) (model : handle) (e : env) (u : upload)
    (bs : list box) (s : state) :
  e_upload e = Some u -> e_start e = true ->
  predict (h_net model) (up_image u) conf = Some bs ->
  infer_uploaded_image conf model e s
  = (ROk tt, set_trace (st_trace s ++ [EvColumns; EvShowUpload (up_image u); EvButton BtnStart;
                                       EvPredict (up_image u) conf;
                                       EvShowResult (plot (up_image u) bs)]
                                    ++ map (fun b => EvWriteBox (box_xywh b)) bs) s).
Proof.
  intros Hu Hs Hp. destruct s as [t c ca n].
  unfold infer_uploaded_image. rewrite Hu, Hs.
  unfold bind, emit, st_button, ret, predict_call, try_except. simpl. rewrite Hp. simpl.
  rewrite for_each_emit_write. simpl. rewrite <- !app_assoc. reflexivity.
Qed.

Lemma image_run_success_witness :
  let u := mkUpload (frame_n 0) (mkCapture false []) 1000000 in
  let e := mkEnv None ""%string 50 SrcImage (Some u) true false (mkCapture false []) (fun _ => None) 4096 in
  let bs := [mkBox 7 (1 # 2)] in
  infer_uploaded_image (1 # 2) (mkHandle 0 (mkYolo (fun _ _ => Some bs))) e state0
  = (ROk tt, set_trace (st_trace state0 ++ [EvColumns; EvShowUpload (up_image u); EvButton BtnStart;
                                       EvPredict (up_image u) (1 # 2);
                                       EvShowResult (plot (up_image u) bs)]
                                    ++ map (fun b => EvWriteBox (box_xywh b)) bs) state0).
Proof. intros u e bs. apply image_run_success; reflexivity. Defined.

(** Image source, uploaded and started, [model.predict] raising: the
    exception leaves [infer_uploaded_image] (nothing catches it there),
    and no result is shown. *)
Theorem image_run_predict_raises (conf : Q) (model : handle) (e : env) (u : upload) (s : state) :
  e_upload e = Some u -> e_start e = true ->
  predict (h_net model) (up_image u) conf = None ->
  infer_uploaded_image conf model e s
  = (RExn ExnPredict, set_trace (st_trace s ++ [EvColumns; EvShowUpload (up_image u);
                                                EvButton BtnStart; EvPredict (up_image u) conf]) s).
Proof.
  intros Hu Hs Hp. destruct s as [t c ca n].
  unfold infer_uploaded_image. rewrite Hu, Hs.
  unfold bind, emit, st_button, ret, predict_call, raise. simpl. rewrite Hp. simpl.
  rewrite <- !app_assoc. reflexivity.
Qed.

Lemma image_run_predict_raises_witness :
  let u := mkUpload (frame_n 0) (mkCapture false []) 1000000 in
  let e := mkEnv None ""%string 50 SrcImage (Some u) true false (mkCapture false []) (fun _ => None) 4096 in
  infer_uploaded_image (1 # 2) (mkHandle 0 stub_fail) e state0
  = (RExn ExnPredict, set_trace (st_trace state0 ++ [EvColumns; EvShowUpload (up_image u);
                                                EvButton BtnStart; EvPredict (up_image u) (1 # 2)]) state0).
Proof. intros u e. apply image_run_predict_raises; reflexivity. Defined.

(** Without an upload, the image source only lays out its two columns and
    the video source does nothing at all; neither renders a start button. *)
Theorem no_upload_runs (fuel : nat) (conf : Q) (model : handle) (e : env) (s : state) :
  e_upload e = None ->
  infer_uploaded_image conf model e s = (ROk tt, set_trace (st_trace s ++ [EvColumns]) s)
  /\ infer_uploaded_video fuel conf model e s = (ROk tt, s).
Proof.
  intros Hu. destruct s as [t c ca n].
  unfold infer_uploaded_image, infer_uploaded_video. rewrite Hu.
  unfold bind, emit, ret. simpl. split; reflexivity.
Qed.

Lemma no_upload_runs_witness :
  let e := mkEnv None ""%string 50 SrcVideo None true false (mkCapture false []) (fun _ => None) 4096 in
  infer_uploaded_image (1 # 2) (mkHandle 0 stub_zero) e state0
    = (ROk tt, set_trace (st_trace state0 ++ [EvColumns]) state0)
  /\ infer_uploaded_video 20 (1 # 2) (mkHandle 0 stub_zero) e state0 = (ROk tt, state0).
Proof. intros e. apply no_upload_runs. reflexivity. Defined.

(** With an upload but no click on start, the image source shows the
    uploaded picture and the video source plays the uploaded video, each
    under a start button, and nothing else happens. *)
Theorem uploaded_not_started (fuel : nat) (conf : Q) (model : handle) (e : env)
    (u : upload) (s : state) :
  e_upload e = Some u -> e_start e = false ->
  infer_uploaded_image conf model e s
    = (ROk tt, set_trace (st_trace s ++ [EvColumns; EvShowUpload (up_image u); EvButton BtnStart]) s)
  /\ infer_uploaded_video fuel conf model e s
    = (ROk tt, set_trace (st_trace s ++ [EvShowVideo; EvButton BtnStart]) s).
Proof.
  intros Hu Hs. destruct s as [t c ca n].
  unfold infer_uploaded_image, infer_uploaded_video. rewrite Hu, Hs.
  unfold bind, emit, st_button, ret. simpl. rewrite <- !app_assoc. split; reflexivity.
Qed.

Lemma uploaded_not_started_witness :
  let u := mkUpload (frame_n 0) (mkCapture true ten_frames) 1000000 in
  let e := mkEnv None ""%string 50 SrcVideo (Some u) false false (mkCapture false []) (fun _ => None) 4096 in
  infer_uploaded_image (1 # 2) (mkHandle 0 stub_zero) e state0
    = (ROk tt, set_trace (st_trace state0 ++ [EvColumns; EvShowUpload (up_image u); EvButton BtnStart]) state0)
  /\ infer_uploaded_video 20 (1 # 2) (mkHandle 0 stub_zero) e state0
    = (ROk tt, set_trace (st_trace state0 ++ [EvShowVideo; EvButton BtnStart]) state0).
Proof. intros u e. apply uploaded_not_started; reflexivity. Defined.

(** In the video and camera sources every inference call is on a frame
    first resized to 720x405, whatever the size of the captured frame. *)
Theorem stream_inference_on_resized (fuel : nat) (conf : Q) (model : handle) (e : env) :
  emits predict_on_resized (infer_uploaded_video fuel conf model e)
  /\ emits predict_on_resized (infer_uploaded_webcam fuel conf model e).
Proof.
  split; [apply emits_infer_video | apply emits_infer_webcam]; simpl; auto.
Qed.

(** Camera unavailable ([isOpened()] false) and stop not clicked: the
    first [read()] fails, the handle is released and the run ends,
    without any inference and without an error message. *)
Theorem webcam_unavailable (fuel : nat) (conf : Q) (model : handle) (e : env)
    (fs : list image) (s : state) :
  e_camera e = mkCapture false fs -> e_stop e = false -> 0 < fuel ->
  exists s', infer_uploaded_webcam fuel conf model e s = (ROk tt, s')
    /\ st_trace s' = st_trace s ++ [EvButton BtnStop; EvCapOpen CapCamera; EvEmpty;
                                    EvCapRead; EvCapRelease].
Proof.
  intros Hc Hs Hf. destruct fuel as [|fuel]; [lia|]. destruct s as [t c ca n].
  eexists. split.
  - unfold infer_uploaded_webcam, try_except, bind, st_button, emit, ret, cap_open,
      set_trace, set_cap. simpl. rewrite Hs, Hc. simpl. reflexivity.
  - simpl. rewrite <- !app_assoc. reflexivity.
Qed.

Lemma webcam_unavailable_witness :
  exists s', infer_uploaded_webcam 20 (1 # 2) (mkHandle 0 stub_zero)
               (video_env stub_zero (mkCapture false []) false false SrcCamera) state0 = (ROk tt, s')
    /\ st_trace s' = st_trace state0 ++ [EvButton BtnStop; EvCapOpen CapCamera; EvEmpty;
                                         EvCapRead; EvCapRelease].
Proof. apply (webcam_unavailable 20 _ _ _ []); [reflexivity | reflexivity | lia]. Defined.

Lemma webcam_loop_raises (conf : Q) (model : handle) (f : image) (fs2 : list image) :
  predict (h_net model) (resize f) conf = None ->
  forall (fs1 : list image) (fuel : nat) (s : state),
  cap_opened (st_cap s) = true -> cap_frames (st_cap s) = fs1 ++ f :: fs2 -> length fs1 < fuel ->
  (forall g, In g fs1 -> predict (h_net model) (resize g) conf <> None) ->
  exists s', webcam_loop fuel false conf model s = (RExn ExnPredict, s')
    /\ st_trace s' = st_trace s ++ flat_map (frame_events conf model) fs1
                     ++ [EvCapRead; EvPredict (resize f) conf].
Proof.
  intros Hf. induction fs1 as [|g fs1 IH]; intros fuel [t c ca n] Ho Hc Hl Hp; simpl in *;
    destruct fuel as [|fuel]; try lia; destruct c as [o fs0]; simpl in *; subst.
  - eexists; split.
    + unfold bind, cap_read, cap_read_result, emit, set_trace, set_cap,
        _display_detected_frames, predict_call, raise. simpl. rewrite Hf. reflexivity.
    + simpl. rewrite <- !app_assoc. reflexivity.
  - unfold frame_events at 1.
    destruct (predict (h_net model) (resize g) conf) as [bs|] eqn:E;
      [|exfalso; apply (Hp g); auto].
    edestruct (IH fuel (mkState (((t ++ [EvCapRead]) ++ [EvPredict (resize g) conf]) ++
                                  [EvSlotImage (plot (resize g) bs)])
                                (mkCapture true (fs1 ++ f :: fs2)) ca n))
      as (s' & Hrun & Ht); simpl; auto; try lia.
    exists s'. split.
    + unfold bind, cap_read, cap_read_result, emit, set_trace, set_cap,
        _display_detected_frames, predict_call. simpl. rewrite ?E. simpl. exact Hrun.
    + rewrite Ht. simpl. rewrite <- !app_assoc. reflexivity.
Qed.

(** Camera source, an inference raising on a frame: the [except] of
    [infer_uploaded_webcam] shows one error message and the run completes;
    the frames before it were processed once each, and no later frame is
    read. *)
Theorem webcam_inference_error_reported (fuel : nat) (conf : Q) (model : handle) (e : env)
    (fs1 fs2 : list image) (f : image) (s : state) :
  e_stop e = false -> e_camera e = mkCapture true (fs1 ++ f :: fs2) -> length fs1 < fuel ->
  (forall g, In g fs1 -> predict (h_net model) (resize g) conf <> None) ->
  predict (h_net model) (resize f) conf = None ->
  exists s', infer_uploaded_webcam fuel conf model e s = (ROk tt, s')
    /\ count is_error (st_trace s') = count is_error (st_trace s) + 1
    /\ count is_read (st_trace s') = count is_read (st_trace s) + S (length fs1)
    /\ count is_slot_image (st_trace s') = count is_slot_image (st_trace s) + length fs1.
Proof.
  intros Hs Hc Hl Hp Hf. destruct s as [t c ca n].
  edestruct (webcam_loop_raises conf model f fs2 Hf fs1 fuel
               (mkState (((t ++ [EvButton BtnStop]) ++ [EvCapOpen CapCamera]) ++ [EvEmpty])
                        (mkCapture true (fs1 ++ f :: fs2)) ca n))
    as (s' & Hrun & Ht); simpl; auto.
  eexists. split.
  { unfold infer_uploaded_webcam, try_except, bind, st_button, emit, ret, cap_open,
      set_trace, set_cap. simpl. rewrite Hs, Hc. simpl. rewrite Hrun. reflexivity. }
  simpl in Ht. simpl. rewrite Ht. autorewrite with counts. simpl.
  rewrite (count_frames conf model is_slot_image 1 fs1 Hp),
          (count_frames conf model is_read 1 fs1 Hp),
          (count_frames conf model is_error 0 fs1 Hp);
    try (intros g bs E; unfold frame_events; rewrite E; reflexivity).
  repeat split; lia.
Qed.

Lemma webcam_inference_error_reported_witness :
  exists s', infer_uploaded_webcam 20 (1 # 2) (mkHandle 0 fail_first)
               (video_env fail_first (mkCapture true ten_frames) false false SrcCamera) state0 = (ROk tt, s')
    /\ count is_error (st_trace s') = count is_error (st_trace state0) + 1
    /\ count is_read (st_trace s') = count is_read (st_trace state0) + S (length (@nil image))
    /\ count is_slot_image (st_trace s') = count is_slot_image (st_trace state0) + length (@nil image).
Proof.
  apply (webcam_inference_error_reported 20 (1 # 2) (mkHandle 0 fail_first) _ [] (tl ten_frames) (frame_n 0));
    try reflexivity.
  - simpl. lia.
  - intros g [].
Defined.

Ltac unfold_prims :=
  unfold bind, cap_isOpened, cap_read, cap_read_result, emit, set_trace, set_cap,
    _display_detected_frames, predict_call, raise, ret, cap_release, out_of_fuel; simpl.

Lemma video_loop_reads_bounded (conf : Q) (model : handle) :
  forall fuel s, count is_read (st_trace (snd (video_loop fuel conf model s)))
                 <= count is_read (st_trace s) + S (length (cap_frames (st_cap s))).
Proof.
  induction fuel as [|fuel IH]; intros [t [o fs] ca n]; simpl video_loop; unfold_prims;
    destruct o; simpl; try lia.
  destruct fs as [|f fs]; unfold_prims; autorewrite with counts; simpl; [lia|].
  destruct (predict (h_net model) (resize f) conf); simpl; autorewrite with counts; simpl; [|lia].
  etransitivity; [apply IH|]. simpl. autorewrite with counts. simpl. lia.
Qed.

Lemma webcam_loop_reads_bounded (conf : Q) (model : handle) (flag : bool) :
  forall fuel s, count is_read (st_trace (snd (webcam_loop fuel flag conf model s)))
                 <= count is_read (st_trace s) + S (length (cap_frames (st_cap s))).
Proof.
  induction fuel as [|fuel IH]; intros [t [o fs] ca n]; destruct flag; simpl webcam_loop;
    unfold_prims; try lia.
  destruct o; [destruct fs as [|f fs]|]; unfold_prims; autorewrite with counts; simpl; try lia.
  destruct (predict (h_net model) (resize f) conf); simpl; autorewrite with counts; simpl; [|lia].
  etransitivity; [apply IH|]. simpl. autorewrite with counts. simpl. lia.
Qed.

(** The capture loops never read past a failed read: a video run reads the
    uploaded file at most once more than it has frames, and a camera run
    reads the device at most once more than it delivers frames, whatever
    the network does. *)
Theorem capture_reads_bounded (fuel : nat) (conf : Q) (model : handle) (e : env) (s : state) :
  (forall u, e_upload e = Some u ->
     count is_read (st_trace (snd (infer_uploaded_video fuel conf model e s)))
     <= count is_read (st_trace s) + S (length (cap_frames (up_cap u))))
  /\ count is_read (st_trace (snd (infer_uploaded_webcam fuel conf model e s)))
     <= count is_read (st_trace s) + S (length (cap_frames (e_camera e))).
Proof.
  destruct s as [t c ca n]. split.
  - intros u Hu. destruct (e_start e) eqn:Hs.
    + set (s1 := mkState ((((t ++ [EvShowVideo]) ++ [EvButton BtnStart]) ++ [EvCapOpen CapFile]) ++ [EvEmpty])
                         (tmp_capture (e_tmp_buffer e) u) ca n).
      assert (Hlen : length (cap_frames (tmp_capture (e_tmp_buffer e) u))
                     <= length (cap_frames (up_cap u)))
        by (unfold tmp_capture; destruct (N.leb _ _); simpl; lia).
      assert (Heq : infer_uploaded_video fuel conf model e (mkState t c ca n) =
                match video_loop fuel conf model s1 with
                | (RExn x, s') => emit (EvError ErrLoadVideo) s'
                | r => r
                end).
      { unfold infer_uploaded_video. rewrite Hu, Hs. reflexivity. }
      rewrite Heq. pose proof (video_loop_reads_bounded conf model fuel s1) as H.
      destruct (video_loop fuel conf model s1) as [[a|x|] s2]; simpl in *;
        unfold s1 in H; simpl in H; autorewrite with counts in *; simpl in *; lia.
    + unfold infer_uploaded_video. rewrite Hu, Hs. unfold_prims. autorewrite with counts. simpl. lia.
  - set (s1 := mkState (((t ++ [EvButton BtnStop]) ++ [EvCapOpen CapCamera]) ++ [EvEmpty])
                       (e_camera e) ca n).
    assert (Heq : infer_uploaded_webcam fuel conf model e (mkState t c ca n) =
              match webcam_loop fuel (e_stop e) conf model s1 with
              | (RExn x, s') => emit (EvError ErrLoadVideo) s'
              | r => r
              end) by reflexivity.
    rewrite Heq. pose proof (webcam_loop_reads_bounded conf model (e_stop e) fuel s1) as H.
    destruct (webcam_loop fuel (e_stop e) conf model s1) as [[a|x|] s2]; simpl in *;
      unfold s1 in H; simpl in H; autorewrite with counts in *; simpl in *; lia.
Qed.

Lemma capture_reads_bounded_witness :
  let e := video_env stub_zero (mkCapture true ten_frames) true false SrcVideo in
  (forall u, e_upload e = Some u ->
     count is_read (st_trace (snd (infer_uploaded_video 20 (1 # 2) (mkHandle 0 stub_zero) e state0)))
     <= count is_read (st_trace state0) + S (length (cap_frames (up_cap u))))
  /\ count is_read (st_trace (snd (infer_uploaded_webcam 20 (1 # 2) (mkHandle 0 stub_zero) e state0)))
     <= count is_read (st_trace state0) + S (length (cap_frames (e_camera e))).
Proof. intros e. apply capture_reads_bounded. Defined.

(** Once the model is in the cache, a run is exactly the branch of the
    chosen source applied to the cached handle and to the confidence
    [slider/100]: nothing is loaded, nothing is shown before it. *)
Theorem app_run_dispatch (fuel : nat) (e : env) (s : state) (mt : string) (h : handle) :
  e_model_type e = Some mt -> String.eqb mt "" = false ->
  st_cache s !! path_join (e_model_dir e) mt = Some h ->
  app_run fuel e s =
    match e_source e with
    | SrcImage => infer_uploaded_image (confidence_of (e_slider e)) h e s
    | SrcVideo => infer_uploaded_video fuel (confidence_of (e_slider e)) h e s
    | SrcCamera => infer_uploaded_webcam fuel (confidence_of (e_slider e)) h e s
    | SrcOther => emit (EvError ErrSources) s
    end.
Proof.
  intros Hm He Hc. unfold app_run. rewrite Hm, He.
  unfold bind, ret, try_except, load_model, read_model. rewrite Hc.
  destruct (e_source e); reflexivity.
Qed.

Lemma app_run_dispatch_witness :
  let e := video_env stub_zero (mkCapture true ten_frames) true false SrcVideo in
  let p := path_join (e_model_dir e) "yolov8n.pt" in
  let s := mkState [] (mkCapture false []) (<[p := mkHandle 0 stub_zero]> ∅) 1 in
  app_run 20 e s = infer_uploaded_video 20 (confidence_of (e_slider e)) (mkHandle 0 stub_zero) e s.
Proof.
  intros e p s. rewrite (app_run_dispatch 20 e s "yolov8n.pt" (mkHandle 0 stub_zero));
    [subst e; cbv [e_source video_env]; reflexivity | vm_compute; reflexivity ..].
Defined.

(** A source outside the three handled ones shows the "only image and
    video" error and runs no inference; the run completes normally even
    when the model failed to load, because [model] is never read. *)
Theorem app_run_other_source (fuel : nat) (e : env) (s : state) :
  e_source e = SrcOther ->
  exists s', app_run fuel e s = (ROk tt, s')
    /\ exists l, st_trace s' = st_trace s ++ l
         /\ Forall no_inference l /\ last l = Some (EvError ErrSources).
Proof.
  intros Hsrc. destruct s as [t c ca n]. unfold app_run. rewrite Hsrc.
  destruct (e_model_type e) as [mt|]; [destruct (String.eqb mt "")|];
    unfold bind, emit, ret, try_except, load_model, set_trace; simpl;
    (destruct (ca !! _); [|destruct (e_weights e _)]); simpl;
    (eexists; split; [reflexivity|]);
    (eexists; split; [cbn [st_trace]; rewrite <- ?app_assoc; reflexivity|]); simpl;
    split; try reflexivity; repeat constructor.
Qed.

Lemma app_run_other_source_witness :
  exists s', app_run 20 (video_env stub_zero (mkCapture true ten_frames) true false SrcOther) state0
               = (ROk tt, s')
    /\ exists l, st_trace s' = st_trace state0 ++ l
         /\ Forall no_inference l /\ last l = Some (EvError ErrSources).
Proof. apply app_run_other_source. reflexivity. Defined.

Lemma bind_ret_l {A B} (a : A) (k : A -> M B) (s : state) : bind (ret a) k s = k a s.
Proof. reflexivity. Qed.

Lemma load_model_fresh_step (w : string -> option yolo) (p : string) (s : state) :
  st_cache s !! p = None ->
  exists r s1, (h <- load_model w p ;; ret (Some h)) s = (r, s1)
    /\ st_trace s1 = st_trace s ++ [EvLoadFile p].
Proof.
  intros Hc. unfold bind, load_model, ret, raise. rewrite Hc.
  destruct (w p); simpl; eauto.
Qed.

Lemma run_after_fresh_load {B} (w : string -> option yolo) (p : string)
    (H : exn -> M (option handle)) (D : option handle -> M B) (s : state) :
  st_cache s !! p = None ->
  (forall x, emits (fun _ => True) (H x)) -> (forall m, emits (fun _ => True) (D m)) ->
  exists l, st_trace (snd (bind (try_except (h <- load_model w p ;; ret (Some h)) H) D s))
            = st_trace s ++ EvLoadFile p :: l.
Proof.
  intros Hc HH HD. destruct (load_model_fresh_step w p s Hc) as (r & s1 & Heq & Ht).
  unfold bind at 1, try_except. rewrite Heq. destruct r as [a|x|]; cbv beta iota.
  - destruct (HD a s1) as (l & Hl & _). exists l. rewrite Hl, Ht, <- app_assoc. reflexivity.
  - destruct (emits_bind (fun _ => True) (H x) D (HH x) HD s1) as (l & Hl & _).
    exists l. unfold bind in Hl. rewrite Hl, Ht, <- !app_assoc. reflexivity.
  - exists []. simpl. rewrite Ht. reflexivity.
Qed.

(** With no model chosen in the selectbox (nothing or the empty name) the
    run first shows "Please select the model", then tries to load the
    empty path: [YOLO("")] is attempted and, unless cached, its file is
    opened; the run goes on afterwards. *)
Theorem no_model_selected (fuel : nat) (e : env) (s : state) :
  (e_model_type e = None \/ e_model_type e = Some ""%string) ->
  st_cache s !! ""%string = None ->
  exists l, st_trace (snd (app_run fuel e s))
            = st_trace s ++ EvError ErrSelectModel :: EvLoadFile "" :: l.
Proof.
  intros Hm Hc. unfold app_run.
  replace (match e_model_type e with
           | Some mt => if String.eqb mt "" then emit (EvError ErrSelectModel) ;; ret ""%string
                        else ret (path_join (e_model_dir e) mt)
           | None => emit (EvError ErrSelectModel) ;; ret ""%string
           end) with (emit (EvError ErrSelectModel) ;; ret ""%string)
    by (destruct Hm as [Hm|Hm]; rewrite Hm; reflexivity).
  rewrite bind_emit, bind_ret_l.
  match goal with
  | |- context [bind (try_except (h <- load_model ?w ?p ;; ret (Some h)) ?H) ?D ?s1] =>
      destruct (run_after_fresh_load w p H D s1) as (l & Hl);
        [| | | rewrite Hl; exists l; unfold set_trace; simpl; rewrite <- app_assoc; reflexivity]
  end.
  - exact Hc.
  - intros x. apply emits_bind; [apply emits_emit; exact Logic.I | intros; apply emits_ret].
  - intros m. destruct (e_source e).
    + apply emits_bind; [apply emits_read_model | intros h].
      apply emits_infer_image; auto.
    + apply emits_bind; [apply emits_read_model | intros h].
      apply emits_infer_video; auto.
    + apply emits_bind; [apply emits_read_model | intros h].
      apply emits_infer_webcam; auto.
    + apply emits_emit; exact Logic.I.
Qed.

Lemma no_model_selected_witness :
  let e := mkEnv None "weights/detection"%string 50 SrcImage None false false
                 (mkCapture false []) (fun _ => None) 4096 in
  (e_model_type e = None \/ e_model_type e = Some ""%string)
  /\ st_cache state0 !! ""%string = None
  /\ exists l, st_trace (snd (app_run 20 e state0))
               = st_trace state0 ++ EvError ErrSelectModel :: EvLoadFile "" :: l.
Proof.
  intros e. split; [left; reflexivity|]. split; [vm_compute; reflexivity|].
  apply (no_model_selected 20 e state0); [left; reflexivity | vm_compute; reflexivity].
Defined.

(** A failing [YOLO(model_path)] is not cached: the call reads the file,
    raises, and leaves the state as it was apart from the read, so the
    next call under the same path reads and raises again. *)
Theorem load_model_failure_not_cached (w : string -> option yolo) (p : string) (s : state) :
  w p = None -> st_cache s !! p = None ->
  exists s1, load_model w p s = (RExn ExnLoad, s1)
    /\ st_trace s1 = st_trace s ++ [EvLoadFile p]
    /\ st_cache s1 = st_cache s /\ st_cap s1 = st_cap s /\ st_next s1 = st_next s
    /\ load_model w p s1 = (RExn ExnLoad, set_trace (st_trace s1 ++ [EvLoadFile p]) s1).
Proof.
  intros Hw Hc. unfold load_model. rewrite Hc, Hw.
  eexists; split; [reflexivity|]. simpl. rewrite Hc, ?Hw. repeat split.
Qed.

Lemma load_model_failure_not_cached_witness :
  exists s1, load_model (fun _ => None) "missing.pt" state0 = (RExn ExnLoad, s1)
    /\ st_trace s1 = st_trace state0 ++ [EvLoadFile "missing.pt"]
    /\ st_cache s1 = st_cache state0 /\ st_cap s1 = st_cap state0 /\ st_next s1 = st_next state0
    /\ load_model (fun _ => None) "missing.pt" s1
       = (RExn ExnLoad, set_trace (st_trace s1 ++ [EvLoadFile "missing.pt"]) s1).
Proof. apply load_model_failure_not_cached; [reflexivity | vm_compute; reflexivity]. Defined.
